(** * briefly: the summarisation pipeline, the translation client and the
      session cache of the article summariser extension

    A shallow embedding of [ai-summarizer.js] (class [AISummarizer]) and of
    the cache handling of the content script ([displaySummary],
    [handleTranslate]).

    JavaScript strings are sequences of UTF-16 code units; [length], [trim],
    [split] and the regular expressions of the source (none carries the [u]
    flag) all work on code units, so a string is a [list N]. *)

From Stdlib Require Import String Ascii DecimalString List Arith NArith Bool Lia.
Import ListNotations.

Set Implicit Arguments.

(** ** JavaScript strings *)

Module JS.

Definition char16 := N.
Definition jsstring := list char16.

(** A literal of the source whose characters are all ASCII. *)
Definition str (s : string) : jsstring :=
  map N_of_ascii (list_ascii_of_string s).

Definition jsstring_eq_dec (a b : jsstring) : {a = b} + {a <> b} :=
  list_eq_dec N.eq_dec a b.

(** [a === b] on two strings. *)
Definition streq (a b : jsstring) : bool :=
  if jsstring_eq_dec a b then true else false.

(** WhiteSpace and LineTerminator of ECMAScript: what [String.prototype.trim]
    removes and what [\s] matches. *)
Definition isWhiteSpace (c : char16) : bool :=
  ((9 <=? c) && (c <=? 13)          (* TAB LF VT FF CR *)
   || (c =? 32)                      (* SPACE *)
   || (c =? 160)                     (* NO-BREAK SPACE *)
   || (c =? 5760)                    (* U+1680 *)
   || ((8192 <=? c) && (c <=? 8202)) (* U+2000 .. U+200A *)
   || (c =? 8232) || (c =? 8233)     (* U+2028 U+2029 *)
   || (c =? 8239)                    (* U+202F *)
   || (c =? 8287)                    (* U+205F *)
   || (c =? 12288)                   (* U+3000 *)
   || (c =? 65279))%N.               (* U+FEFF *)

Fixpoint dropWhile (p : char16 -> bool) (s : jsstring) : jsstring :=
  match s with
  | [] => []
  | c :: s' => if p c then dropWhile p s' else s
  end.

Definition trimStart (s : jsstring) : jsstring := dropWhile isWhiteSpace s.
Definition trimEnd (s : jsstring) : jsstring :=
  rev (dropWhile isWhiteSpace (rev s)).

(** [s.trim()] *)
Definition trim (s : jsstring) : jsstring := trimEnd (trimStart s).

(** [s.split(sep)] for a one-unit separator: never the empty array, the
    empty string splits into one empty string. *)
Fixpoint split (sep : char16) (s : jsstring) : list jsstring :=
  match s with
  | [] => [[]]
  | c :: s' =>
      if (c =? sep)%N then [] :: split sep s'
      else match split sep s' with
           | l :: ls => (c :: l) :: ls
           | [] => [[c]]
           end
  end.

(** [a.join(sep)] on an array of strings. *)
Fixpoint join (sep : jsstring) (a : list jsstring) : jsstring :=
  match a with
  | [] => []
  | [x] => x
  | x :: rest => x ++ sep ++ join sep rest
  end.

(** [s.substring(0, n)] *)
Definition substring0 (n : nat) (s : jsstring) : jsstring := firstn n s.

Definition LF : char16 := 10%N.

End JS.

Import JS.

(** ** The sanitisation of a provider's raw text

    [summarizeWithGroq] and [summarizeWithGemini] carry the same statements
    after [// Parse bullet points]; they are embedded once. *)

Module Sanitize.

(** The character class [[•\-\*\d+\.\)]]: inside the brackets [\d] is a
    digit and [+], [.], [)] are literal characters. *)
Definition isMarkerChar (c : char16) : bool :=
  ((c =? 8226)                      (* U+2022 BULLET *)
   || (c =? 45)                     (* - *)
   || (c =? 42)                     (* * *)
   || ((48 <=? c) && (c <=? 57))    (* \d *)
   || (c =? 43)                     (* + *)
   || (c =? 46)                     (* . *)
   || (c =? 41))%N.                 (* ) *)

(** [line.replace(/^[•\-\*\d+\.\)]\s*/, '')]: one character of the class at
    the start of the string and the white space after it. *)
Definition stripMarker (line : jsstring) : jsstring :=
  match line with
  | c :: rest => if isMarkerChar c then dropWhile isWhiteSpace rest else line
  | [] => []
  end.

(** Whether the regular expression of [stripMarker] matches. *)
Definition startsWithMarker (line : jsstring) : bool :=
  match line with
  | c :: _ => isMarkerChar c
  | [] => false
  end.

(** [/[.!?]$/.test(lastPoint)] *)
Definition endsWithPunctuation (lastPoint : jsstring) : bool :=
  match rev lastPoint with
  | c :: _ => ((c =? 46) || (c =? 33) || (c =? 63))%N
  | [] => false
  end.

(** The lines after [.split('\n').map(trim).filter(length > 0)]. *)
Definition nonEmptyLines (generatedText : jsstring) : list jsstring :=
  filter (fun line => 0 <? length line)
         (map trim (split LF generatedText)).

(** The lines after the marker has been stripped, before the length filter. *)
Definition strippedLines (generatedText : jsstring) : list jsstring :=
  map (fun line => trim (stripMarker line)) (nonEmptyLines generatedText).

(** [.filter(line => line.length > 20)] *)
Definition longEnough (line : jsstring) : bool := 20 <? length line.

(** The constant [points] as first computed. *)
Definition parsePoints (generatedText : jsstring) : list jsstring :=
  filter longEnough (strippedLines generatedText).

(** [// Remove last point if incomplete]: [points.pop()] when the last
    element fails the test. *)
Definition removeIncompleteLast (points : list jsstring) : list jsstring :=
  match points with
  | [] => []
  | _ :: _ =>
      let lastPoint := last points [] in
      if endsWithPunctuation lastPoint then points else removelast points
  end.

(** The array the provider method returns for a raw text. *)
Definition sanitize (generatedText : jsstring) : list jsstring :=
  removeIncompleteLast (parsePoints generatedText).

End Sanitize.

Import Sanitize.

(** ** Values parsed from JSON

    What [response.json()] and [JSON.parse] hand to the code.  Numbers are
    IEEE doubles in JavaScript; the code only asks whether one is truthy and
    for its string form, so they are kept abstract behind those two
    operations. *)

Module Json.

Class Number := {
  number : Type;
  numberTruthy : number -> bool;
  numberToString : number -> jsstring
}.

Section WithNumber.
Context `{Number}.

#[local] Unset Elimination Schemes.
Inductive json :=
| JNull
| JBool (b : bool)
| JNum (n : number)
| JStr (s : jsstring)
| JArr (items : list json)
| JObj (props : list (jsstring * json)).
#[local] Set Elimination Schemes.

(** A JavaScript value reached from parsed JSON: [None] is [undefined]. *)
Definition value := option json.

Definition truthy (v : value) : bool :=
  match v with
  | None => false
  | Some JNull => false
  | Some (JBool b) => b
  | Some (JNum n) => numberTruthy n
  | Some (JStr s) => match s with [] => false | _ :: _ => true end
  | Some (JArr _) => true
  | Some (JObj _) => true
  end.

Fixpoint lookup (name : jsstring) (props : list (jsstring * json)) : value :=
  match props with
  | [] => None
  | (k, v) :: rest => if streq k name then Some v else lookup name rest
  end.

(** [v.name] on a value that is neither [null] nor [undefined], for the
    property names the source reads ([choices], [message], [content],
    [candidates], [parts], [text], [finishReason], [error]): only an object
    parsed from JSON can own one of them. *)
Definition getProp (name : jsstring) (v : json) : value :=
  match v with
  | JObj props => lookup name props
  | _ => None
  end.

(** [v[0]] on a value that is neither [null] nor [undefined]. *)
Definition getIndex0 (v : json) : value :=
  match v with
  | JArr items => match items with [] => None | x :: _ => Some x end
  | JStr s => match s with [] => None | c :: _ => Some (JStr [c]) end
  | JObj props => lookup (str "0") props
  | _ => None
  end.

(** [v?.name] and [v?.[0]] *)
Definition optProp (name : jsstring) (v : value) : value :=
  match v with
  | None | Some JNull => None
  | Some o => getProp name o
  end.

Definition optIndex0 (v : value) : value :=
  match v with
  | None | Some JNull => None
  | Some o => getIndex0 o
  end.

(** [String(v)], as a template literal or [join] converts a value; [None]
    when the conversion throws a [TypeError].  An array is joined with
    commas, [null] elements giving the empty string.  An object parsed from
    JSON inherits [Object.prototype.toString] and gives [[object Object]],
    unless it owns a key [toString]: the value of the key is no function,
    so the conversion goes on to the inherited [valueOf], which returns the
    object itself, and throws. *)
Fixpoint toString (v : json) : option jsstring :=
  match v with
  | JNull => Some (str "null")
  | JBool true => Some (str "true")
  | JBool false => Some (str "false")
  | JNum n => Some (numberToString n)
  | JStr s => Some s
  | JArr items =>
      (fix joinItems (l : list json) : option jsstring :=
         match l with
         | [] => Some []
         | x :: rest =>
             match (match x with JNull => Some [] | _ => toString x end) with
             | None => None
             | Some here =>
                 match rest with
                 | [] => Some here
                 | _ :: _ =>
                     match joinItems rest with
                     | None => None
                     | Some there => Some (here ++ str "," ++ there)
                     end
                 end
             end
         end) items
  | JObj props =>
      match lookup (str "toString") props with
      | Some _ => None
      | None => Some (str "[object Object]")
      end
  end.

(** A value inside a template literal. *)
Definition templateString (v : value) : option jsstring :=
  match v with
  | None => Some (str "undefined")
  | Some x => toString x
  end.

(** One element of [a.join('')]: [undefined] and [null] give the empty
    string. *)
Definition joinElement (v : value) : option jsstring :=
  match v with
  | None | Some JNull => Some []
  | Some x => toString x
  end.

(** [a.join('')]: the elements are converted in order, and the first
    conversion that throws ends the call. *)
Fixpoint joinAll (a : list value) : option jsstring :=
  match a with
  | [] => Some []
  | v :: rest =>
      match joinElement v with
      | None => None
      | Some here =>
          match joinAll rest with
          | None => None
          | Some there => Some (here ++ there)
          end
      end
  end.

End WithNumber.

End Json.

Import Json.

(** ** Promises, errors and the network *)

Module Net.

(** What a rejected promise carries: an [Error] made by the source with its
    message, or an error of the runtime. *)
Inductive error :=
| Error (message : jsstring)
| NetworkError      (* [fetch] rejects *)
| SyntaxError       (* [response.json()] on a body that is not JSON *)
| TypeError         (* a property of [null], or a call of a non-function *)
| URIError.         (* [encodeURIComponent] on a lone surrogate *)

Inductive outcome (A : Type) :=
| Resolved (a : A)
| Rejected (e : error).
Arguments Resolved {A} a.
Arguments Rejected {A} e.

(** The prompt of the two provider methods is one fixed template with two
    holes; the holes are kept, the fixed text is not reproduced.  A [null]
    title prints as the text [null]. *)
Record prompt := {
  promptTitle : option jsstring;
  promptContent : jsstring
}.

(** [langMap[targetLanguage] || 'hi']: a code of the table, or what the
    lookup finds for a name that every object inherits. *)
Inductive langcode :=
| Code (c : jsstring)
| Inherited (name : jsstring).

Inductive request :=
| GroqRequest (bearer : option jsstring) (p : prompt)
| GeminiRequest (key : option jsstring) (p : prompt)
| TranslateRequest (tl : langcode) (q : jsstring).

Section WithNumber.
Context `{Number}.

(** A response whose body has arrived: [text()] gives [bodyText], [json()]
    and [JSON.parse] give [bodyJson], [None] when the body is not JSON. *)
Record response := {
  status : N;
  bodyText : jsstring;
  bodyJson : option json
}.

(** [response.ok] *)
Definition ok (r : response) : bool :=
  ((200 <=? status r) && (status r <=? 299))%N.

Inductive fetchResult :=
| FetchFails
| FetchGives (r : response).

(** The environment: the answer to the [n]-th request of a run. *)
Definition network := nat -> request -> fetchResult.

(** An asynchronous computation: it reads the network and extends the list
    of requests sent so far. *)
Definition M (A : Type) := network -> list request -> outcome A * list request.

Definition ret {A} (a : A) : M A := fun _ sent => (Resolved a, sent).
Definition throw {A} (e : error) : M A := fun _ sent => (Rejected e, sent).

Definition bind {A B} (m : M A) (k : A -> M B) : M B :=
  fun net sent =>
    match m net sent with
    | (Resolved a, sent') => k a net sent'
    | (Rejected e, sent') => (Rejected e, sent')
    end.

(** [try { m } catch (error) { handler error }] *)
Definition tryCatch {A} (m : M A) (handler : error -> M A) : M A :=
  fun net sent =>
    match m net sent with
    | (Resolved a, sent') => (Resolved a, sent')
    | (Rejected e, sent') => handler e net sent'
    end.

(** [await fetch(...)] *)
Definition fetch (req : request) : M response :=
  fun net sent =>
    match net (length sent) req with
    | FetchFails => (Rejected NetworkError, sent ++ [req])
    | FetchGives r => (Resolved r, sent ++ [req])
    end.

(** [await response.json()] *)
Definition responseJson (r : response) : M json :=
  match bodyJson r with
  | Some data => ret data
  | None => throw SyntaxError
  end.

(** [await Promise.all(ms)] where every computation of [ms] sends its
    request when it is created, in the order of the array: all of them run;
    the result is the array of their values, or a rejection when one of them
    rejects (the model reports the first in array order). *)
Fixpoint promiseAll {A} (ms : list (M A)) : M (list A) :=
  match ms with
  | [] => ret []
  | m :: rest =>
      fun net sent =>
        match m net sent with
        | (Resolved a, sent') =>
            match promiseAll rest net sent' with
            | (Resolved l, sent'') => (Resolved (a :: l), sent'')
            | (Rejected e, sent'') => (Rejected e, sent'')
            end
        | (Rejected e, sent') =>
            (Rejected e, snd (promiseAll rest net sent'))
        end
  end.

(** Run from an empty list of requests. *)
Definition run {A} (m : M A) (net : network) : outcome A * list request :=
  m net [].

End WithNumber.

End Net.

Import Net.

Declare Scope js_scope.
Delimit Scope js_scope with js.
Notation "x <- m ;; k" := (bind m (fun x => k))
  (at level 61, m at next level, right associativity) : js_scope.
Open Scope js_scope.

(** ** class AISummarizer *)

Module AISummarizer.

(** The two fields the methods read; [None] is [null]. *)
Record t := {
  groqApiKey : option jsstring;
  geminiApiKey : option jsstring
}.

(** [constructor(groqApiKey = null, geminiApiKey = null)] *)
Definition new (groqApiKey geminiApiKey : option jsstring) : t :=
  {| groqApiKey := groqApiKey; geminiApiKey := geminiApiKey |}.

(** [key !== null && key.trim() !== ''] *)
Definition keyAvailable (key : option jsstring) : bool :=
  match key with
  | None => false
  | Some k => negb (streq (trim k) [])
  end.

Definition isGroqAvailable (this : t) : bool := keyAvailable (groqApiKey this).
Definition isGeminiAvailable (this : t) : bool := keyAvailable (geminiApiKey this).

Definition maxChars : nat := N.to_nat 25000.

(** [text.length > maxChars ? text.substring(0, maxChars) + '...' : text] *)
Definition truncatedText (text : jsstring) : jsstring :=
  if maxChars <? length text then substring0 maxChars text ++ str "..." else text.

(** The decimal form of [response.status]. *)
Definition statusToString (n : N) : jsstring :=
  str (DecimalString.NilZero.string_of_uint (N.to_uint n)).

Definition apiKeyRequired : error :=
  Error (str "API key required. Please configure Groq or Gemini API key in extension options.").

Section WithNumber.
Context `{Number}.

(** The statements after [const generatedText = ...], common to the two
    providers but for the message: reject when the text is falsy, call
    [split] on it (only a string has it) and sanitise. *)
Definition pointsOfGenerated (noText : jsstring) (generatedText : value)
  : M (list jsstring) :=
  if negb (truthy generatedText) then throw (Error noText)
  else match generatedText with
       | Some (JStr s) => ret (sanitize s)
       | _ => throw TypeError
       end.

(** [data.choices?.[0]?.message?.content] *)
Definition groqGeneratedText (data : json) : M value :=
  match data with
  | JNull => throw TypeError
  | _ => ret (optProp (str "content")
                (optProp (str "message")
                   (optIndex0 (getProp (str "choices") data))))
  end.

Definition summarizeWithGroq (this : t) (text : jsstring) (title : option jsstring)
  : M (list jsstring) :=
  response <- fetch (GroqRequest (groqApiKey this)
                       {| promptTitle := title; promptContent := truncatedText text |}) ;;
  if negb (ok response) then
    throw (Error (str "Groq API error: " ++ statusToString (status response)
                  ++ str " - " ++ bodyText response))
  else
    data <- responseJson response ;;
    generatedText <- groqGeneratedText data ;;
    pointsOfGenerated (str "No text generated from Groq API") generatedText.

(** [data.candidates?.[0]?.content?.parts?.[0]?.text] *)
Definition geminiGeneratedText (data : json) : M value :=
  match data with
  | JNull => throw TypeError
  | _ => ret (optProp (str "text")
                (optIndex0
                   (optProp (str "parts")
                      (optProp (str "content")
                         (optIndex0 (getProp (str "candidates") data))))))
  end.

(** The message built when the response is not [ok]: the [message] of the
    parsed error body when there is one, the first 200 units of the raw
    body when parsing, reading [errorData.error] of [null], or converting
    the message to a string throws. *)
Definition geminiErrorMessage (response : response) : jsstring :=
  let errorText := bodyText response in
  let errorMessage := str "Gemini API error: " ++ statusToString (status response) in
  let raw :=
    match errorText with
    | [] => errorMessage
    | _ :: _ => errorMessage ++ str " - " ++ substring0 200 errorText
    end in
  match bodyJson response with
  | None => raw
  | Some JNull => raw
  | Some errorData =>
      let message := optProp (str "message") (getProp (str "error") errorData) in
      if truthy message then
        match templateString message with
        | Some detail => errorMessage ++ str " - " ++ detail
        | None => raw
        end
      else errorMessage
  end.

Definition summarizeWithGemini (this : t) (text : jsstring) (title : option jsstring)
  : M (list jsstring) :=
  response <- fetch (GeminiRequest (geminiApiKey this)
                       {| promptTitle := title; promptContent := truncatedText text |}) ;;
  if negb (ok response) then
    throw (Error (geminiErrorMessage response))
  else
    data <- responseJson response ;;
    generatedText <- geminiGeneratedText data ;;
    pointsOfGenerated (str "No text generated from API") generatedText.

(** [summarize(text, title)]: Groq when its key is available, with every
    failure caught and dropped; then Gemini when its key is available, its
    failure thrown again; then the final [throw]. *)
Definition summarize (this : t) (text : jsstring) (title : option jsstring)
  : M (list jsstring) :=
  let afterGroq : M (list jsstring) :=
    if isGeminiAvailable this then
      tryCatch (summarizeWithGemini this text title) (fun error => throw error)
    else
      throw apiKeyRequired in
  if isGroqAvailable this then
    tryCatch (summarizeWithGroq this text title) (fun _ => afterGroq)
  else afterGroq.

(** The table [langMap] of [translate]. *)
Definition langMap : list (string * string) :=
  [("Hindi", "hi"); ("English", "en"); ("Spanish", "es"); ("French", "fr");
   ("German", "de"); ("Italian", "it"); ("Portuguese", "pt"); ("Russian", "ru");
   ("Japanese", "ja"); ("Korean", "ko"); ("Chinese", "zh-CN")]%string.

(** The names every object literal inherits from [Object.prototype]; looking
    one up in [langMap] finds a function (or the prototype), which is
    truthy. *)
Definition inheritedNames : list string :=
  ["constructor"; "hasOwnProperty"; "isPrototypeOf"; "propertyIsEnumerable";
   "toLocaleString"; "toString"; "valueOf"; "__proto__";
   "__defineGetter__"; "__defineSetter__"; "__lookupGetter__";
   "__lookupSetter__"]%string.

(** [langMap[targetLanguage] || 'hi'] *)
Definition langCode (targetLanguage : jsstring) : langcode :=
  match find (fun kv => streq (str (fst kv)) targetLanguage) langMap with
  | Some kv => Code (str (snd kv))
  | None =>
      if existsb (fun n => streq (str n) targetLanguage) inheritedNames
      then Inherited targetLanguage
      else Code (str "hi")
  end.

Definition isHighSurrogate (c : char16) : bool := ((55296 <=? c) && (c <=? 56319))%N.
Definition isLowSurrogate (c : char16) : bool := ((56320 <=? c) && (c <=? 57343))%N.

(** Whether [encodeURIComponent] accepts the string: it throws a [URIError]
    on a surrogate that is not part of a pair. *)
Fixpoint wellFormed (s : jsstring) : bool :=
  match s with
  | [] => true
  | c :: rest =>
      if isHighSurrogate c then
        match rest with
        | d :: rest' => isLowSurrogate d && wellFormed rest'
        | [] => false
        end
      else if isLowSurrogate c then false
      else wellFormed rest
  end.

(** [data[0].map(s => s[0]).join('')] once [data[0]] is known to be truthy:
    only an array has [map], [s[0]] of a [null] segment throws, and so does
    [join] on an element that has no string form. *)
Definition joinSegments (data0 : json) : M jsstring :=
  match data0 with
  | JArr segments =>
      if existsb (fun s => match s with JNull => true | _ => false end) segments
      then throw TypeError
      else
        match joinAll (map getIndex0 segments) with
        | Some translated => ret translated
        | None => throw TypeError
        end
  | _ => throw TypeError
  end.

(** The body of the [try] of [translatePoint]. *)
Definition translatePointTry (tl : langcode) (text : jsstring) : M jsstring :=
  if negb (wellFormed text) then throw URIError
  else
    res <- fetch (TranslateRequest tl text) ;;
    if negb (ok res) then throw (Error (str "HTTP " ++ statusToString (status res)))
    else
      data <- responseJson res ;;
      if truthy (Some data) && truthy (getIndex0 data) then
        match getIndex0 data with
        | Some data0 => joinSegments data0
        | None => ret text
        end
      else ret text.

(** [translatePoint]: every failure of the body gives the text back. *)
Definition translatePoint (tl : langcode) (text : jsstring) : M jsstring :=
  tryCatch (translatePointTry tl text) (fun _ => ret text).

(** [translate(points, targetLanguage)] *)
Definition translate (points : list jsstring) (targetLanguage : jsstring)
  : M (list jsstring) :=
  let tl := langCode targetLanguage in
  tryCatch (promiseAll (map (fun p => translatePoint tl p) points))
           (fun _ => throw (Error (str "Translation failed"))).

End WithNumber.

End AISummarizer.

(** ** The content script

    The state of the closure, the panel reduced to what the handlers read
    and write, and the handlers as functions of the state and of what the
    page and the network answer.  A handler runs to its end before the next
    one starts; the delay of [setTimeout] in [displaySummary] adds nothing
    to the model.

    The source holds two revisions of the script.  They read and write
    [cachedUrl], [cachedSummary], [cachedTitle] and [currentSummaryPoints]
    with the same statements; the first one, whose [handleTranslate] calls
    [summarizer.translate], is the one embedded. *)

Module Content.

(** Pieces of markup the script writes into the content area. *)
Inductive markup :=
| CommentMarkup
| LoadingMarkup
| ListMarkup (items : list jsstring)
| ErrorMarkup (message : jsstring)
| NoArticleMarkup.

(** The browser: the text it lays out for a piece of markup ([innerText])
    and the message of an error thrown by the runtime. *)
Class Browser := {
  innerText : markup -> jsstring;
  runtimeMessage : error -> jsstring
}.

(** The content area, by the element the selectors of [handleTranslate]
    find in it. *)
Inductive content :=
| Placeholder
| Loading
| SummaryList (items : list jsstring)   (* [.summarizer-summary] *)
| ErrorBox (text : jsstring)            (* [.summarizer-error], its text *)
| NoArticle (text : jsstring)           (* [.summarizer-no-article-text] *)
| PlainText (text : jsstring).

Inductive buttonLabel := Hindi | Translating | Translated | ErrorLabel.

Record panel := {
  titleEl : jsstring;
  subtitleEl : jsstring;
  translateBtn : buttonLabel;
  translateBtnDisabled : bool;
  contentDiv : content
}.

Record state := {
  summarizer : option AISummarizer.t;
  panelOpen : bool;
  summaryPanel : option panel;
  currentSummaryPoints : list jsstring;
  cachedUrl : option jsstring;
  cachedSummary : option (list jsstring);
  cachedTitle : option jsstring
}.

(** What [extractor.extractArticle()] returns when it is not [null]. *)
Record article := {
  title : option jsstring;
  text : jsstring
}.

(** What a handler gets from outside: [window.location.href], the answer of
    [chrome.storage.sync.get] ([None] when it rejects, otherwise the two
    stored keys), the extracted article and the network. *)
Record page `{Number} := {
  href : jsstring;
  storage : option (option jsstring * option jsstring);
  extracted : option article;
  net : network
}.

Definition initial : state :=
  {| summarizer := None; panelOpen := false; summaryPanel := None;
     currentSummaryPoints := [];
     cachedUrl := None; cachedSummary := None; cachedTitle := None |}.

Definition setSummarizer (x : option AISummarizer.t) (st : state) : state :=
  {| summarizer := x; panelOpen := panelOpen st; summaryPanel := summaryPanel st;
     currentSummaryPoints := currentSummaryPoints st;
     cachedUrl := cachedUrl st; cachedSummary := cachedSummary st;
     cachedTitle := cachedTitle st |}.

Definition setPanelOpen (b : bool) (st : state) : state :=
  {| summarizer := summarizer st; panelOpen := b; summaryPanel := summaryPanel st;
     currentSummaryPoints := currentSummaryPoints st;
     cachedUrl := cachedUrl st; cachedSummary := cachedSummary st;
     cachedTitle := cachedTitle st |}.

Definition setPanel (p : option panel) (st : state) : state :=
  {| summarizer := summarizer st; panelOpen := panelOpen st; summaryPanel := p;
     currentSummaryPoints := currentSummaryPoints st;
     cachedUrl := cachedUrl st; cachedSummary := cachedSummary st;
     cachedTitle := cachedTitle st |}.

Definition setCurrentSummaryPoints (pts : list jsstring) (st : state) : state :=
  {| summarizer := summarizer st; panelOpen := panelOpen st;
     summaryPanel := summaryPanel st;
     currentSummaryPoints := pts;
     cachedUrl := cachedUrl st; cachedSummary := cachedSummary st;
     cachedTitle := cachedTitle st |}.

(** The three assignments under [// Cache the summary]. *)
Definition cachePut (currentUrl : jsstring) (summaryPoints : list jsstring)
    (articleTitle : option jsstring) (st : state) : state :=
  {| summarizer := summarizer st; panelOpen := panelOpen st;
     summaryPanel := summaryPanel st;
     currentSummaryPoints := currentSummaryPoints st;
     cachedUrl := Some currentUrl; cachedSummary := Some summaryPoints;
     cachedTitle := articleTitle |}.

(** A string or [null] as a condition. *)
Definition truthyString (s : option jsstring) : bool :=
  match s with
  | Some (_ :: _) => true
  | _ => false
  end.

(** [x || null] on a stored key. *)
Definition orNull (s : option jsstring) : option jsstring :=
  if truthyString s then s else None.

(** The test [cachedUrl === currentUrl && cachedSummary && cachedTitle] of
    [displaySummary] and what the branch reads: the cached title and
    points, or nothing when the test fails. *)
Definition cacheGet (currentUrl : jsstring) (st : state)
  : option (jsstring * list jsstring) :=
  match cachedUrl st, cachedSummary st, cachedTitle st with
  | Some url, Some points, Some (c :: t) =>
      if streq url currentUrl then Some (c :: t, points) else None
  | _, _, _ => None
  end.

(** [// Reset Button] and [// Reset Header] *)
Definition headerTitle : jsstring := [55357; 56541]%N ++ str " Article Summary".
Definition headerSubtitle : jsstring := str "Key points extracted just for you".

Definition resetTranslateButton (p : panel) : panel :=
  {| titleEl := headerTitle; subtitleEl := headerSubtitle;
     translateBtn := Hindi; translateBtnDisabled := false;
     contentDiv := contentDiv p |}.

Definition setContent (c : content) (p : panel) : panel :=
  {| titleEl := titleEl p; subtitleEl := subtitleEl p;
     translateBtn := translateBtn p; translateBtnDisabled := translateBtnDisabled p;
     contentDiv := c |}.

Definition setButton (l : buttonLabel) (disabled : bool) (p : panel) : panel :=
  {| titleEl := titleEl p; subtitleEl := subtitleEl p;
     translateBtn := l; translateBtnDisabled := disabled;
     contentDiv := contentDiv p |}.

Definition setHeader (t s : jsstring) (p : panel) : panel :=
  {| titleEl := t; subtitleEl := s;
     translateBtn := translateBtn p; translateBtnDisabled := translateBtnDisabled p;
     contentDiv := contentDiv p |}.

(** [createPanel] *)
Definition createPanel : panel :=
  {| titleEl := headerTitle; subtitleEl := headerSubtitle;
     translateBtn := Hindi; translateBtnDisabled := false;
     contentDiv := Placeholder |}.

(** [displayPoints(container, title, points)]: the title is not used. *)
Definition displayPoints (points : list jsstring) (p : panel) : panel :=
  resetTranslateButton (setContent (SummaryList points) p).

Section WithBrowser.
Context `{Number} `{Browser}.

Definition showError (message : jsstring) (p : panel) : panel :=
  resetTranslateButton (setContent (ErrorBox (innerText (ErrorMarkup message))) p).

Definition showNoArticle (p : panel) : panel :=
  resetTranslateButton (setContent (NoArticle (innerText NoArticleMarkup)) p).

(** [error.message] *)
Definition messageOf (e : error) : jsstring :=
  match e with
  | Error m => m
  | _ => runtimeMessage e
  end.

(** [initializeSummarizer]; the class [AISummarizer] is loaded with the
    script, so [typeof AISummarizer !== 'undefined'] holds. *)
Definition initializeSummarizer (stored : option (option jsstring * option jsstring))
    (st : state) : state :=
  match stored with
  | Some (g, k) =>
      let groqKey := orNull g in
      let geminiKey := orNull k in
      if truthyString groqKey || truthyString geminiKey
      then setSummarizer (Some (AISummarizer.new groqKey geminiKey)) st
      else setSummarizer None st
  | None => setSummarizer None st
  end.

Definition notConfiguredMessage : jsstring :=
  str "Please configure a Groq or Gemini API key in the extension options to use AI summarization. Click the extension icon "
  ++ [8594%N] ++ str " Options to set up your API key.".

(** The part of [displaySummary] after [summarizer.summarize] has settled:
    [result] is what the promise gave, [None] standing for a falsy value. *)
Definition afterSummarize (currentUrl : jsstring) (a : article)
    (result : outcome (option (list jsstring))) (p : panel) (st : state) : state :=
  match result with
  | Rejected e =>
      setPanel (Some (showError
        (str "An error occurred while summarizing: " ++ messageOf e
         ++ str ". Please check your API key in extension options.") p)) st
  | Resolved None | Resolved (Some []) =>
      setPanel (Some (showError
        (str "Could not generate summary. Please check your API key and try again.") p)) st
  | Resolved (Some summaryPoints) =>
      let st1 := cachePut currentUrl summaryPoints (title a) st in
      let st2 := setCurrentSummaryPoints summaryPoints st1 in
      setPanel (Some (displayPoints summaryPoints p)) st2
  end.

(** [displaySummary] *)
Definition displaySummary (pg : page) (st : state) : state :=
  match summaryPanel st with
  | None => st
  | Some p =>
      let currentUrl := href pg in
      match cacheGet currentUrl st with
      | Some (_, cached) =>
          setPanel (Some (displayPoints cached p))
                   (setCurrentSummaryPoints cached st)
      | None =>
          let p := setContent Loading p in
          let st :=
            match summarizer st with
            | None => initializeSummarizer (storage pg) st
            | Some _ => st
            end in
          match summarizer st with
          | None => setPanel (Some (showError notConfiguredMessage p)) st
          | Some this =>
              match extracted pg with
              | None => setPanel (Some (showNoArticle p)) st
              | Some a =>
                  let result :=
                    match run (AISummarizer.summarize this (text a) (title a)) (net pg) with
                    | (Resolved points, _) => Resolved (Some points)
                    | (Rejected e, _) => Rejected e
                    end in
                  afterSummarize currentUrl a result p st
              end
          end
      end
  end.

(** [openPanel] and [closePanel] *)
Definition openPanel (pg : page) (st : state) : state :=
  let p := match summaryPanel st with
           | None => createPanel
           | Some p => p
           end in
  let st := setPanelOpen true (setPanel (Some (resetTranslateButton p)) st) in
  displaySummary pg st.

Definition closePanel (st : state) : state :=
  match summaryPanel st with
  | None => st
  | Some _ => setPanelOpen false st
  end.

(** [handleButtonClick] *)
Definition handleButtonClick (pg : page) (st : state) : state :=
  if panelOpen st then closePanel st else openPanel pg st.

(** What [handleTranslate] decided to translate after the two header
    texts: the summary list, the text of one element, or nothing. *)
Inductive mode :=
| ListMode
| TextMode (target : jsstring -> content)
| NoTarget.

(** [contentDiv.innerText] *)
Definition contentInnerText (c : content) : jsstring :=
  match c with
  | Placeholder => innerText CommentMarkup
  | Loading => innerText LoadingMarkup
  | SummaryList items => innerText (ListMarkup items)
  | ErrorBox t => t
  | NoArticle t => t
  | PlainText t => t
  end.

(** The chain of tests of [handleTranslate]: the texts pushed after the
    header and the mode. *)
Definition toTranslate (st : state) (p : panel) : list jsstring * mode :=
  let fallback :=
    let t := trim (contentInnerText (contentDiv p)) in
    match t with
    | [] => ([], NoTarget)
    | _ :: _ => ([t], TextMode PlainText)
    end in
  match contentDiv p with
  | SummaryList _ =>
      match currentSummaryPoints st with
      | [] => fallback
      | _ :: _ => (currentSummaryPoints st, ListMode)
      end
  | ErrorBox t => ([t], TextMode ErrorBox)
  | NoArticle t => ([t], TextMode NoArticle)
  | _ => fallback
  end.

(** [// Apply header translations]: the panel with the translated header
    and [contentResults], the rest of the translated array. *)
Definition applyHeader (translatedResult : list jsstring) (p : panel)
  : panel * list jsstring :=
  match translatedResult with
  | [] => (p, [])
  | t :: [] => (setHeader t (subtitleEl p) p, [])
  | t :: u :: contentResults => (setHeader t u p, contentResults)
  end.

(** [handleTranslate] *)
Definition handleTranslate (network : network) (st : state) : state :=
  match summarizer st, summaryPanel st with
  | Some this, Some p =>
      let '(texts, m) := toTranslate st p in
      let textToTranslate := [titleEl p; subtitleEl p] ++ texts in
      let p := setButton Translating true p in
      match run (AISummarizer.translate textToTranslate (str "Hindi")) network with
      | (Resolved translatedResult, _) =>
          let '(p, contentResults) := applyHeader translatedResult p in
          match m with
          | ListMode =>
              let p := displayPoints contentResults p in
              let st := setCurrentSummaryPoints contentResults st in
              setPanel (Some (setButton Translated (translateBtnDisabled p) p)) st
          | TextMode target =>
              let p :=
                match contentResults with
                | [] => p
                | first :: _ => setContent (target first) p
                end in
              setPanel (Some (setButton Translated (translateBtnDisabled p) p)) st
          | NoTarget =>
              setPanel (Some (setButton Translated (translateBtnDisabled p) p)) st
          end
      | (Rejected _, _) =>
          setPanel (Some (setButton ErrorLabel (translateBtnDisabled p) p)) st
      end
  | _, _ => st
  end.

(** The timer of the [catch] of [handleTranslate] puts the label read at
    the click back and enables the button. *)
Definition translateTimer (originalBtnText : buttonLabel) (st : state) : state :=
  match summaryPanel st with
  | Some p => setPanel (Some (setButton originalBtnText false p)) st
  | None => st
  end.

(** What can happen to the script. *)
Inductive event :=
| LoadKeys (stored : option (option jsstring * option jsstring))
    (* the call at load and the [reloadSummarizer] message *)
| ButtonClick (pg : page)
    (* the float button, the [toggleSummary] message, the shortcut *)
| Close
    (* the close button, the overlay, the Escape key *)
| TranslateClick (network : network)
| TranslateTimer (originalBtnText : buttonLabel).

Definition step (st : state) (ev : event) : state :=
  match ev with
  | LoadKeys stored => initializeSummarizer stored st
  | ButtonClick pg => handleButtonClick pg st
  | Close => closePanel st
  | TranslateClick network => handleTranslate network st
  | TranslateTimer l => translateTimer l st
  end.

(** The state after a sequence of events, from the state at load. *)
Definition after (evs : list event) : state := fold_left step evs initial.

End WithBrowser.

End Content.

(** ** The translator of the second revision of the content script

    [translateText] and [translateMultiple], which the second revision of
    [handleTranslate] calls in place of [summarizer.translate]. *)

Module Standalone.

Section WithNumber.
Context `{Number}.

(** The body of the [try] of [translateText]. *)
Definition translateTextTry (text targetLang : jsstring) : M jsstring :=
  if negb (AISummarizer.wellFormed text) then throw URIError
  else
    res <- fetch (TranslateRequest (Code targetLang) text) ;;
    if negb (ok res) then
      throw (Error (str "HTTP " ++ AISummarizer.statusToString (status res)))
    else
      data <- responseJson res ;;
      if truthy (Some data) && truthy (getIndex0 data) then
        match getIndex0 data with
        | Some data0 => AISummarizer.joinSegments data0
        | None => ret text
        end
      else ret text.

(** [translateText(text, targetLang)] *)
Definition translateText (text targetLang : jsstring) : M jsstring :=
  tryCatch (translateTextTry text targetLang) (fun _ => ret text).

(** [translateMultiple(texts, targetLang)] *)
Definition translateMultiple (texts : list jsstring) (targetLang : jsstring)
  : M (list jsstring) :=
  promiseAll (map (fun t => translateText t targetLang) texts).

End WithNumber.

End Standalone.

(** ** The options page

    [options.js]: the two inputs, the status line and
    [chrome.storage.sync] reduced to the two keys the page stores.  Whether
    a call of the storage succeeds is given from outside. *)

Module Options.

(** The two entries of [chrome.storage.sync]: [None] when the entry is
    absent or [null]. *)
Record storage := {
  groqApiKey : option jsstring;
  geminiApiKey : option jsstring
}.

Record form := {
  groqApiKeyInput : jsstring;
  geminiApiKeyInput : jsstring
}.

(** The three endings of the success message of [saveSettings]. *)
Inductive enabled := GroqAndGemini | GroqOnly | GeminiOnly.

(** The calls of [showStatus], by their message. *)
Inductive status :=
| NoStatus
| SettingsLoaded
| EnterAtLeastOneKey
| GeminiFormatWarning
| GroqFormatWarning
| SettingsSaved (e : enabled)
| SaveFailed
| KeysCleared
| ClearFailed.

Record page := {
  inputs : form;
  statusDiv : status
}.

(** What a handler leaves: the page, the storage, and whether the tabs
    were sent [reloadSummarizer]. *)
Record result := {
  pageAfter : page;
  storageAfter : storage;
  notified : bool
}.

(** [s.startsWith(prefix)] *)
Fixpoint startsWith (prefix s : jsstring) : bool :=
  match prefix, s with
  | [], _ => true
  | p :: prefix', c :: s' => (c =? p)%N && startsWith prefix' s'
  | _ :: _, [] => false
  end.

(** A string as a condition. *)
Definition nonEmpty (s : jsstring) : bool :=
  match s with [] => false | _ :: _ => true end.

Definition showStatus (message : status) (pg : page) : page :=
  {| inputs := inputs pg; statusDiv := message |}.

(** [loadSettings]: [stored] is what [chrome.storage.sync.get] gave, [None]
    when it rejected. *)
Definition loadSettings (stored : option storage) (pg : page) : page :=
  match stored with
  | None => pg
  | Some result =>
      let groq := match groqApiKey result with
                  | Some (c :: k) => c :: k
                  | _ => groqApiKeyInput (inputs pg)
                  end in
      let gemini := match geminiApiKey result with
                    | Some (c :: k) => c :: k
                    | _ => geminiApiKeyInput (inputs pg)
                    end in
      let pg := {| inputs := {| groqApiKeyInput := groq; geminiApiKeyInput := gemini |};
                   statusDiv := statusDiv pg |} in
      if Content.truthyString (groqApiKey result)
         || Content.truthyString (geminiApiKey result)
      then showStatus SettingsLoaded pg
      else pg
  end.

(** [saveSettings]: [setSucceeds] tells whether [chrome.storage.sync.set]
    resolved. *)
Definition saveSettings (setSucceeds : bool) (pg : page) (st : storage) : result :=
  let groqKey := trim (groqApiKeyInput (inputs pg)) in
  let geminiKey := trim (geminiApiKeyInput (inputs pg)) in
  let stop message :=
    {| pageAfter := showStatus message pg; storageAfter := st; notified := false |} in
  if negb (nonEmpty groqKey) && negb (nonEmpty geminiKey) then
    stop EnterAtLeastOneKey
  else if nonEmpty geminiKey && negb (startsWith (str "AIza") geminiKey) then
    stop GeminiFormatWarning
  else if nonEmpty groqKey && negb (startsWith (str "gsk_") groqKey) then
    stop GroqFormatWarning
  else if setSucceeds then
    let toSave :=
      {| groqApiKey := if nonEmpty groqKey then Some groqKey else groqApiKey st;
         geminiApiKey := if nonEmpty geminiKey then Some geminiKey
                         else geminiApiKey st |} in
    let message :=
      if nonEmpty groqKey && nonEmpty geminiKey then GroqAndGemini
      else if nonEmpty groqKey then GroqOnly
      else GeminiOnly in
    {| pageAfter := showStatus (SettingsSaved message) pg;
       storageAfter := toSave; notified := true |}
  else stop SaveFailed.

(** [clearSettings]: [removeSucceeds] tells whether
    [chrome.storage.sync.remove] resolved. *)
Definition clearSettings (removeSucceeds : bool) (pg : page) (st : storage) : result :=
  if removeSucceeds then
    {| pageAfter := {| inputs := {| groqApiKeyInput := []; geminiApiKeyInput := [] |};
                       statusDiv := KeysCleared |};
       storageAfter := {| groqApiKey := None; geminiApiKey := None |};
       notified := true |}
  else
    {| pageAfter := showStatus ClearFailed pg; storageAfter := st; notified := false |}.

(** What [chrome.storage.sync.get(['groqApiKey', 'geminiApiKey'])] gives the
    content script for a storage. *)
Definition stored (st : storage) : option (option jsstring * option jsstring) :=
  Some (groqApiKey st, geminiApiKey st).

End Options.

(** ** The article extractor

    [article-extractor.js], the path without Readability: the text of an
    element, its paragraphs, the semantic extraction and
    [fallbackExtraction].  The DOM is reduced to what these functions read
    from it. *)

Module Extractor.

(** An element: its [textContent] once the unwanted descendants are
    removed, and the [textContent] of each of its [p] descendants. *)
Record element := {
  rawText : jsstring;
  pTexts : list jsstring
}.

(** What the page offers: the [article] elements in document order, the
    [main] element, the candidate [tryHeuristicExtraction] settles on (none
    when no candidate scores above 0), the [content] of the [og:title] meta
    element when there is one ([null] without the attribute), the text of
    the first [h1], [document.title] and the host name. *)
Record dom := {
  articleTags : list element;
  mainTag : option element;
  bestCandidate : option element;
  ogTitle : option (option jsstring);
  h1 : option jsstring;
  documentTitle : jsstring;
  hostname : jsstring
}.

Definition minArticleLength : nat := 300.

(** [s.replace(/\s+/g, ' ')]: [inRun] holds while the units read last were
    white space. *)
Fixpoint collapseWhiteSpace (inRun : bool) (s : jsstring) : jsstring :=
  match s with
  | [] => []
  | c :: s' =>
      if isWhiteSpace c then
        if inRun then collapseWhiteSpace true s'
        else 32%N :: collapseWhiteSpace true s'
      else c :: collapseWhiteSpace false s'
  end.

(** [getTextContent(element)] *)
Definition getTextContent (e : element) : jsstring :=
  trim (collapseWhiteSpace false (rawText e)).

(** [extractParagraphs(element)] *)
Definition extractParagraphs (e : element) : list jsstring :=
  filter (fun text => 50 <=? length text) (map trim (pTexts e)).

(** The [{ text, paragraphs }] of the two extraction methods. *)
Record extraction := {
  text : jsstring;
  paragraphs : list jsstring
}.

Definition extractionOf (e : element) : extraction :=
  {| text := getTextContent e; paragraphs := extractParagraphs e |}.

(** The loop of [trySemanticExtraction] over the [article] elements:
    [longestArticle] and [maxLength]. *)
Definition longerArticle (acc : option element * nat) (a : element)
  : option element * nat :=
  let text := getTextContent a in
  if snd acc <? length text then (Some a, length text) else acc.

(** [trySemanticExtraction] *)
Definition trySemanticExtraction (d : dom) : option extraction :=
  match fst (fold_left longerArticle (articleTags d) (None, 0)) with
  | Some longestArticle => Some (extractionOf longestArticle)
  | None =>
      match mainTag d with
      | Some m =>
          if minArticleLength <=? length (getTextContent m)
          then Some (extractionOf m)
          else None
      | None => None
      end
  end.

(** [tryHeuristicExtraction], given the candidate it settles on. *)
Definition tryHeuristicExtraction (d : dom) : option extraction :=
  option_map extractionOf (bestCandidate d).

(** [extractTitle] *)
Definition extractTitle (d : dom) : option jsstring :=
  match ogTitle d with
  | Some content => content
  | None =>
      match h1 d with
      | Some t => Some (trim t)
      | None => Some (documentTitle d)
      end
  end.

(** The object [fallbackExtraction] returns. *)
Record article := {
  title : option jsstring;
  articleText : jsstring;
  articleParagraphs : list jsstring;
  excerpt : jsstring;
  byline : jsstring;
  siteName : jsstring
}.

(** [fallbackExtraction] *)
Definition fallbackExtraction (d : dom) : option article :=
  let found :=
    match trySemanticExtraction d with
    | Some a => Some a
    | None => tryHeuristicExtraction d
    end in
  match found with
  | None => None
  | Some a =>
      if length (text a) <? minArticleLength then None
      else Some {| title := extractTitle d;
                   articleText := text a;
                   articleParagraphs := paragraphs a;
                   excerpt := substring0 200 (text a) ++ str "...";
                   byline := [];
                   siteName := hostname d |}
  end.

End Extractor.

(** ** Notions the statements use *)

(** A string [trim] leaves alone: no white space at either end. *)
Definition trimmed (s : jsstring) : Prop :=
  dropWhile isWhiteSpace s = s /\ dropWhile isWhiteSpace (rev s) = rev s.

(** A string without a line feed. *)
Definition noLF (s : jsstring) : Prop := Forall (fun c => c <> LF) s.

(** A line the first four steps of the sanitisation give back as it is. *)
Definition settled (x : jsstring) : Prop :=
  noLF x /\ trim x = x /\ 20 < length x /\ startsWithMarker x = false.

(** A key that is [null], empty, or made of white space only. *)
Definition blank (key : option jsstring) : Prop :=
  match key with
  | None => True
  | Some k => Forall (fun c => isWhiteSpace c = true) k
  end.

Definition isGroqRequest (r : request) : bool :=
  match r with GroqRequest _ _ => true | _ => false end.
Definition isGeminiRequest (r : request) : bool :=
  match r with GeminiRequest _ _ => true | _ => false end.

Section Observations.
Context `{Number}.

(** A computation that sends nothing. *)
Definition silent {A} (m : M A) : Prop :=
  forall net sent, snd (m net sent) = sent.

(** What [translatePoint] takes from an answer: the response is a success,
    its body is JSON, the first element of the body is an array of segments
    none of which is [null], the first element of every segment has a
    string form, and the result is the concatenation of these forms.  Any
    other answer carries none. *)
Definition translationIn (answer : fetchResult) : option jsstring :=
  match answer with
  | FetchFails => None
  | FetchGives r =>
      if ok r then
        match bodyJson r with
        | Some data =>
            if truthy (Some data) then
              match getIndex0 data with
              | Some (JArr segments) =>
                  if existsb (fun s => match s with JNull => true | _ => false end)
                             segments
                  then None
                  else joinAll (map getIndex0 segments)
              | _ => None
              end
            else None
        | None => None
        end
      else None
  end.

(** What one item becomes, given the answer to its own request: what
    [translatePoint] takes from the answer when the request could be sent
    and the answer carries something, the item itself otherwise. *)
Definition itemResult (text : jsstring) (answer : fetchResult) : jsstring :=
  if AISummarizer.wellFormed text then
    match translationIn answer with
    | Some translated => translated
    | None => text
    end
  else text.

(** The translation of a body, in the words of the specification: a success
    response is a JSON array whose first element is an array of one or more
    tuples [[translatedSegment, ...]], and the translated text is the
    concatenation of each tuple's first element.  A body of any other shape
    is malformed and has no translation. *)
Definition segmentText (segment : json) : option jsstring :=
  match segment with
  | JArr (JStr translatedSegment :: _) => Some translatedSegment
  | _ => None
  end.

Fixpoint segmentTexts (segments : list json) : option jsstring :=
  match segments with
  | [] => Some []
  | segment :: rest =>
      match segmentText segment, segmentTexts rest with
      | Some here, Some there => Some (here ++ there)
      | _, _ => None
      end
  end.

Definition specTranslation (data : json) : option jsstring :=
  match data with
  | JArr (JArr (segment :: rest) :: _) => segmentTexts (segment :: rest)
  | _ => None
  end.

(** The failures of one item that [translatePoint] detects: the text cannot
    be encoded for the URL, the request fails, the status is no success, the
    body is not JSON, [data] or [data[0]] is falsy, [data[0]] is not an
    array, a segment is [null], or the first element of a segment has no
    string form. *)
Inductive detectedFailure (text : jsstring) : fetchResult -> Prop :=
| NotEncodable answer :
    AISummarizer.wellFormed text = false -> detectedFailure text answer
| NetworkFailure : detectedFailure text FetchFails
| NotSuccess r : ok r = false -> detectedFailure text (FetchGives r)
| NotJson r : bodyJson r = None -> detectedFailure text (FetchGives r)
| FalsyData r data :
    bodyJson r = Some data -> truthy (Some data) = false ->
    detectedFailure text (FetchGives r)
| FalsyFirst r data :
    bodyJson r = Some data -> truthy (getIndex0 data) = false ->
    detectedFailure text (FetchGives r)
| FirstNotArray r data :
    bodyJson r = Some data ->
    (forall segments, getIndex0 data <> Some (JArr segments)) ->
    detectedFailure text (FetchGives r)
| NullSegment r data segments :
    bodyJson r = Some data -> getIndex0 data = Some (JArr segments) ->
    In JNull segments ->
    detectedFailure text (FetchGives r)
| NoStringForm r data segments :
    bodyJson r = Some data -> getIndex0 data = Some (JArr segments) ->
    joinAll (map getIndex0 segments) = None ->
    detectedFailure text (FetchGives r).

(** The position of the request of item [i] among the requests of a run
    that had sent [sent] before: items that cannot be encoded send none. *)
Definition requestIndex (sent : list request) (points : list jsstring) (i : nat) : nat :=
  length sent + length (filter AISummarizer.wellFormed (firstn i points)).

End Observations.

(** The three variables of the cache. *)
Definition cacheOf (st : Content.state)
  : option jsstring * option (list jsstring) * option jsstring :=
  (Content.cachedUrl st, Content.cachedSummary st, Content.cachedTitle st).


(** A string that occurs in another, as a run of consecutive units. *)
Definition infix (x s : jsstring) : Prop := exists a b, s = a ++ x ++ b.

Section ProviderObservations.
Context `{Number}.

(** The value [summarizeWithGroq] reads as the generated text:
    [data.choices?.[0]?.message?.content]. *)
Definition groqContent (data : json) : value :=
  optProp (str "content")
    (optProp (str "message") (optIndex0 (getProp (str "choices") data))).

(** The value [summarizeWithGemini] reads as the generated text:
    [data.candidates?.[0]?.content?.parts?.[0]?.text]. *)
Definition geminiContent (data : json) : value :=
  optProp (str "text")
    (optIndex0
       (optProp (str "parts")
          (optProp (str "content")
             (optIndex0 (getProp (str "candidates") data))))).

(** The request each provider method sends. *)
Definition groqRequest (this : AISummarizer.t) (text : jsstring)
    (title : option jsstring) : request :=
  GroqRequest (AISummarizer.groqApiKey this)
    {| promptTitle := title; promptContent := AISummarizer.truncatedText text |}.

Definition geminiRequest (this : AISummarizer.t) (text : jsstring)
    (title : option jsstring) : request :=
  GeminiRequest (AISummarizer.geminiApiKey this)
    {| promptTitle := title; promptContent := AISummarizer.truncatedText text |}.

(** The article content a provider request carries. *)
Definition contentOf (r : request) : jsstring :=
  match r with
  | GroqRequest _ p | GeminiRequest _ p => promptContent p
  | TranslateRequest _ q => q
  end.

End ProviderObservations.

(** An element as the sanitisation leaves it: [trim] does not change it and
    it has more than 20 code units. *)
Definition sanitized (x : jsstring) : Prop := trim x = x /\ 20 < length x.

(** What holds of the state of the content script between two handlers: an
    open panel exists; a summary list in the panel is the array of current
    points and is not empty; the URL and the points of the cache are set
    together; the cached points are not empty and are as the sanitisation
    leaves them. *)
Definition consistent (st : Content.state) : Prop :=
  (Content.panelOpen st = true -> Content.summaryPanel st <> None)
  /\ (forall p items,
        Content.summaryPanel st = Some p ->
        Content.contentDiv p = Content.SummaryList items ->
        Content.currentSummaryPoints st = items /\ items <> [])
  /\ (Content.cachedUrl st = None <-> Content.cachedSummary st = None)
  /\ (forall pts, Content.cachedSummary st = Some pts ->
        pts <> [] /\ Forall sanitized pts).

(** A text in which white space occurs only as single spaces. *)
Definition singleSpaced (s : jsstring) : Prop :=
  (forall c, In c s -> isWhiteSpace c = true -> c = 32%N)
  /\ (forall a b x y, s = a ++ x :: y :: b ->
        isWhiteSpace x = true -> isWhiteSpace y = true -> False).

(** The words of a text: its maximal runs of units that are no white
    space, in order.  The text is cut at every unit of white space, as
    [split] cuts at a separator, and the empty pieces are dropped. *)
Fixpoint splitAtWhiteSpace (s : jsstring) : list jsstring :=
  match s with
  | [] => [[]]
  | c :: s' =>
      if isWhiteSpace c then [] :: splitAtWhiteSpace s'
      else match splitAtWhiteSpace s' with
           | l :: ls => (c :: l) :: ls
           | [] => [[c]]
           end
  end.

Definition words (s : jsstring) : list jsstring :=
  filter (fun w => 0 <? length w) (splitAtWhiteSpace s).

(** The units of a text that are no white space, in order. *)
Definition inked (s : jsstring) : jsstring :=
  filter (fun c => negb (isWhiteSpace c)) s.

(** A paragraph as [extractParagraphs] keeps it. *)
Definition keptParagraph (p : jsstring) : Prop := trim p = p /\ 50 <= length p.

(** ** Concrete inputs

    A number type and a browser to run the model on: integers that print in
    decimal, and a browser that lays the markup out as plain lines. *)

#[export] Instance naturalNumbers : Number := {|
  number := N;
  numberTruthy := fun n => negb (n =? 0)%N;
  numberToString := AISummarizer.statusToString
|}.

#[export] Instance plainBrowser : Content.Browser := {|
  Content.innerText := fun m =>
    match m with
    | Content.CommentMarkup => []
    | Content.LoadingMarkup => str "Analyzing article..."
    | Content.ListMarkup items => join [LF] items
    | Content.ErrorMarkup message => str "Setup Required:" ++ [LF; LF] ++ message
    | Content.NoArticleMarkup => str "No article content detected on this page."
    end;
  Content.runtimeMessage := fun _ => str "runtime error"
|}.

(** The raw text of the example of the specification. *)
Definition spec_example_raw : jsstring :=
  str "1. Short." ++ [LF]
  ++ str "2. This is a sufficiently long bullet point that should survive filtering."
  ++ [LF] ++ str "Incomplete without end".

(** Three long lines, none of them finished. *)
Definition three_unfinished_raw : jsstring :=
  str "A first long line without a terminal mark" ++ [LF]
  ++ str "A second long line without a terminal mark" ++ [LF]
  ++ str "A third long line without a terminal mark".

(** Two finished sentences. *)
Definition two_finished_raw : jsstring :=
  str "The first sentence is long enough to stay." ++ [LF]
  ++ str "The second sentence is long enough as well!".

(** A summariser with a Groq key only, and a network on which every request
    is answered with status 500. *)
Definition groq_only : AISummarizer.t :=
  AISummarizer.new (Some (str "gsk_live")) None.

Definition network_500 : network :=
  fun _ _ => FetchGives {| status := 500; bodyText := str "boom"; bodyJson := None |}.

(** The batch of the specification, and a network that translates three of
    its items and fails on the second. *)
Definition spec_batch : list jsstring :=
  [str "Title"; str "Subtitle"; str "Point A"; str "Point B"].

Definition oneSegment (t : string) : fetchResult :=
  FetchGives {| status := 200; bodyText := [];
                bodyJson := Some (JArr [JArr [JArr [JStr (str t); JNull]]]) |}.

Definition spec_batch_network : network :=
  fun _ req =>
    match req with
    | TranslateRequest _ q =>
        if streq q (str "Title") then oneSegment "T"
        else if streq q (str "Point A") then oneSegment "A"
        else if streq q (str "Point B") then oneSegment "B"
        else FetchFails
    | _ => FetchFails
    end.

(** Two success responses that are JSON but not of the shape of a
    translation: [[[5,{}]]], whose segments are a number and an object, and
    [[[[{}]]]], whose one segment starts with an object.  The network gives
    the first to the first request and the second to every other. *)
Definition segments_without_text : json := JArr [JArr [JNum 5%N; JObj []]].
Definition segment_of_object : json := JArr [JArr [JArr [JObj []]]].

Definition wrong_shape_network : network :=
  fun n _ =>
    match n with
    | 0 => FetchGives {| status := 200; bodyText := str "[[5,{}]]";
                         bodyJson := Some segments_without_text |}
    | _ => FetchGives {| status := 200; bodyText := str "[[[{}]]]";
                         bodyJson := Some segment_of_object |}
    end.

(** An element whose text has white space of several kinds at both ends
    and between its words. *)
Definition spaced_element : Extractor.element :=
  {| Extractor.rawText :=
       [32; 10]%N ++ str "A" ++ [32; 32; 9]%N ++ str "short" ++ [LF; 160%N]
       ++ str "teaser" ++ [13; 10; 32]%N;
     Extractor.pTexts := [] |}.

(** A Groq answer whose generated text is [generated], a network that
    gives it to every Groq request and one fixed translation to every
    translation request, and a page behind that network with a stored Groq
    key and an article. *)
Definition groqAnswer (generated : jsstring) : fetchResult :=
  FetchGives {|
    status := 200; bodyText := [];
    bodyJson := Some (JObj [(str "choices",
                  JArr [JObj [(str "message",
                    JObj [(str "content", JStr generated)])]])]) |}.

Definition session_network (generated : jsstring) : network :=
  fun _ req =>
    match req with
    | GroqRequest _ _ => groqAnswer generated
    | TranslateRequest _ _ => oneSegment "anuvaad"
    | GeminiRequest _ _ => FetchFails
    end.

Definition session_page (generated : jsstring) : Content.page :=
  {| Content.href := str "https://example.org/a";
     Content.storage := Some (Some (str "gsk_live"), None);
     Content.extracted :=
       Some {| Content.title := Some (str "Title");
               Content.text := str "article text" |};
     Content.net := session_network generated |}.

(** The keys are loaded and the panel is opened: the page is summarised. *)
Definition summarised : Content.state :=
  Content.after
    [Content.LoadKeys (Some (Some (str "gsk_live"), None));
     Content.ButtonClick (session_page two_finished_raw)].

(** A summariser with both keys, a Gemini answer whose generated text is
    [generated], and a network on which Groq answers with status 500 and
    Gemini with that answer. *)
Definition both_keys : AISummarizer.t :=
  AISummarizer.new (Some (str "gsk_live")) (Some (str "AIza_live")).

Definition geminiAnswer (generated : jsstring) : fetchResult :=
  FetchGives {|
    status := 200; bodyText := [];
    bodyJson := Some (JObj [(str "candidates",
                  JArr [JObj [(str "content",
                    JObj [(str "parts",
                      JArr [JObj [(str "text", JStr generated)]])])]])]) |}.

Definition fallback_network (generated : jsstring) : network :=
  fun _ req =>
    match req with
    | GroqRequest _ _ =>
        FetchGives {| status := 500; bodyText := str "boom"; bodyJson := None |}
    | GeminiRequest _ _ => geminiAnswer generated
    | TranslateRequest _ _ => FetchFails
    end.

(** A network that is down. *)
Definition offline_network : network := fun _ _ => FetchFails.

(** An options page on which a Groq key was typed between spaces, and an
    empty storage. *)
Definition groq_typed : Options.page :=
  {| Options.inputs := {| Options.groqApiKeyInput := str "  gsk_abc ";
                          Options.geminiApiKeyInput := [] |};
     Options.statusDiv := Options.NoStatus |}.

Definition empty_storage : Options.storage :=
  {| Options.groqApiKey := None; Options.geminiApiKey := None |}.

(** A page with a short [article] element, a long [main] element and a
    long heuristic candidate. *)
Definition long_element : Extractor.element :=
  {| Extractor.rawText := repeat 97%N 400; Extractor.pTexts := [] |}.

Definition short_article_page : Extractor.dom :=
  {| Extractor.articleTags :=
       [{| Extractor.rawText := str "  A   short" ++ [LF] ++ str " teaser ";
           Extractor.pTexts := [] |}];
     Extractor.mainTag := Some long_element;
     Extractor.bestCandidate := Some long_element;
     Extractor.ogTitle := None;
     Extractor.h1 := Some (str " Headline ");
     Extractor.documentTitle := str "Site";
     Extractor.hostname := str "example.org" |}.

(** * Verification *)

(** ** Strings *)

Section StringFacts.

Lemma streq_true_iff (a b : jsstring) : streq a b = true <-> a = b.
Proof.
  unfold streq. destruct (jsstring_eq_dec a b); split; congruence.
Qed.

Lemma streq_false_iff (a b : jsstring) : streq a b = false <-> a <> b.
Proof.
  unfold streq. destruct (jsstring_eq_dec a b); split; congruence.
Qed.


Variable p : char16 -> bool.

Lemma dropWhile_suffix (s : jsstring) : exists pre, s = pre ++ dropWhile p s.
Proof.
  induction s as [|c s IH]; simpl.
  - exists []. reflexivity.
  - destruct (p c).
    + destruct IH as [pre E]. exists (c :: pre). simpl. congruence.
    + exists []. reflexivity.
Qed.

Lemma dropWhile_head (s : jsstring) c r : dropWhile p s = c :: r -> p c = false.
Proof.
  induction s as [|d s IH]; simpl; [discriminate|].
  destruct (p d) eqn:E; [exact IH|]. intros [= <- _]. exact E.
Qed.

Lemma dropWhile_fixed (s : jsstring) :
  match s with [] => True | c :: _ => p c = false end -> dropWhile p s = s.
Proof.
  destruct s as [|c s]; simpl; [reflexivity|]. intros ->. reflexivity.
Qed.

Lemma dropWhile_idem (s : jsstring) : dropWhile p (dropWhile p s) = dropWhile p s.
Proof.
  apply dropWhile_fixed. destruct (dropWhile p s) as [|c r] eqn:E; [exact I|].
  exact (dropWhile_head _ E).
Qed.

Lemma dropWhile_Forall (q : char16 -> Prop) (s : jsstring) :
  Forall q s -> Forall q (dropWhile p s).
Proof.
  induction 1 as [|c s Hc Hs IH]; simpl; [constructor|].
  destruct (p c); [exact IH | constructor; assumption].
Qed.

End StringFacts.

Lemma trimmed_trim_id (s : jsstring) : trimmed s -> trim s = s.
Proof.
  intros [H1 H2]. unfold trim, trimEnd, trimStart.
  rewrite H1, H2. apply rev_involutive.
Qed.

Lemma trim_trimmed (s : jsstring) : trimmed (trim s).
Proof.
  unfold trim, trimEnd, trimStart.
  set (a := dropWhile isWhiteSpace s).
  set (b := dropWhile isWhiteSpace (rev a)).
  split.
  - apply dropWhile_fixed.
    destruct (rev b) as [|c r] eqn:Erb; [exact I|].
    destruct (dropWhile_suffix isWhiteSpace (rev a)) as [pre Epre].
    fold b in Epre.
    assert (Ea : a = rev b ++ rev pre).
    { rewrite <- rev_app_distr, <- Epre. symmetry. apply rev_involutive. }
    rewrite Erb in Ea. simpl in Ea.
    exact (dropWhile_head isWhiteSpace s Ea).
  - rewrite rev_involutive. apply dropWhile_idem.
Qed.

Lemma trim_idem (s : jsstring) : trim (trim s) = trim s.
Proof. apply trimmed_trim_id, trim_trimmed. Qed.

Lemma trim_Forall (q : char16 -> Prop) (s : jsstring) :
  Forall q s -> Forall q (trim s).
Proof.
  intros Hs. unfold trim, trimEnd, trimStart.
  apply Forall_rev, dropWhile_Forall, Forall_rev, dropWhile_Forall, Hs.
Qed.

(** ** The sanitisation *)

Lemma removeIncompleteLast_cases (points : list jsstring) :
  (removeIncompleteLast points = points
   /\ (points = [] \/ endsWithPunctuation (last points []) = true))
  \/ (removeIncompleteLast points = removelast points
      /\ points <> [] /\ endsWithPunctuation (last points []) = false).
Proof.
  destruct points as [|x l].
  - left. split; [reflexivity | left; reflexivity].
  - unfold removeIncompleteLast.
    destruct (endsWithPunctuation (last (x :: l) [])) eqn:E.
    + left. split; [reflexivity | right; reflexivity].
    + right. split; [reflexivity | split; [discriminate | reflexivity]].
Qed.

Lemma In_removelast (A : Type) (l : list A) (x : A) :
  In x (removelast l) -> In x l.
Proof.
  induction l as [|a l IH]; simpl; [tauto|].
  destruct l as [|b l]; [simpl; tauto|].
  intros [->|H]; [left; reflexivity | right; apply IH, H].
Qed.

Lemma In_sanitize_parsePoints raw x :
  In x (sanitize raw) -> In x (parsePoints raw).
Proof.
  unfold sanitize.
  destruct (removeIncompleteLast_cases (parsePoints raw)) as [[-> _]|[-> _]];
    [tauto | apply In_removelast].
Qed.

Lemma strippedLines_trimmed raw x : In x (strippedLines raw) -> trim x = x.
Proof.
  unfold strippedLines. rewrite in_map_iff. intros [line [<- _]].
  apply trim_idem.
Qed.

Lemma In_parsePoints raw x :
  In x (parsePoints raw) <-> In x (strippedLines raw) /\ 20 < length x.
Proof.
  unfold parsePoints, longEnough. rewrite filter_In, Nat.ltb_lt. tauto.
Qed.

(** C3. On the three-line example of the specification the code returns one
    element that still starts with the dot and the space of the marker
    [2. ]: the class of the regular expression takes the digit only.  The
    array is not the one the specification gives. *)
Theorem spec_example_keeps_dot :
  sanitize spec_example_raw
  = [str ". This is a sufficiently long bullet point that should survive filtering."]
  /\ strippedLines spec_example_raw
     = [str ". Short.";
        str ". This is a sufficiently long bullet point that should survive filtering.";
        str "Incomplete without end"]
  /\ sanitize spec_example_raw
     <> [str "This is a sufficiently long bullet point that should survive filtering."].
Proof.
  split; [vm_compute; reflexivity|].
  split; [vm_compute; reflexivity|].
  vm_compute. discriminate.
Qed.

(** C4, as the code has it.  Every element of the returned array is left
    alone by [trim], is longer than 20 code units (so it is not empty after
    trimming), and is one of the parsed lines.  The test for [.], [!] or [?]
    is made on the last parsed line and on no other: when the last parsed
    line passes it, all parsed lines are returned; when it fails, the last
    parsed line is removed and the lines before it are returned, whatever
    they end in. *)
Theorem sanitize_elements raw :
  (forall x, In x (sanitize raw) ->
     trim x = x /\ trim x <> [] /\ 20 < length x /\ In x (parsePoints raw))
  /\ (parsePoints raw = [] -> sanitize raw = [])
  /\ (forall front lastPoint, parsePoints raw = front ++ [lastPoint] ->
        (endsWithPunctuation lastPoint = true -> sanitize raw = front ++ [lastPoint])
        /\ (endsWithPunctuation lastPoint = false -> sanitize raw = front)).
Proof.
  split; [|split].
  - intros x Hx.
    pose proof (In_sanitize_parsePoints _ _ Hx) as Hp.
    apply In_parsePoints in Hp as Hp'. destruct Hp' as [Hs Hlen].
    pose proof (strippedLines_trimmed _ _ Hs) as Ht.
    split; [exact Ht|]. split; [|split; assumption].
    rewrite Ht. intros ->. simpl in Hlen. lia.
  - unfold sanitize. intros ->. reflexivity.
  - intros front lastPoint E. unfold sanitize. rewrite E.
    unfold removeIncompleteLast.
    destruct (front ++ [lastPoint]) as [|y l] eqn:F;
      [destruct front; discriminate F|].
    rewrite <- F. cbv zeta. rewrite last_last, removelast_last.
    split; intros ->; reflexivity.
Qed.

(** Of three long lines the third does not end in [.], [!] or [?]: it is
    removed, and the first two are returned as they are. *)
Lemma sanitize_elements_witness :
  let first := str "A first long line without a terminal mark" in
  let second := str "A second long line without a terminal mark" in
  let third := str "A third long line without a terminal mark" in
  parsePoints three_unfinished_raw = [first; second] ++ [third]
  /\ endsWithPunctuation third = false
  /\ sanitize three_unfinished_raw = [first; second]
  /\ trim first = first /\ 20 < length first.
Proof.
  cbv zeta.
  destruct (sanitize_elements three_unfinished_raw) as [Hel [_ Hlast]].
  assert (E : parsePoints three_unfinished_raw
              = [str "A first long line without a terminal mark";
                 str "A second long line without a terminal mark"]
                ++ [str "A third long line without a terminal mark"])
    by (vm_compute; reflexivity).
  assert (F : endsWithPunctuation (str "A third long line without a terminal mark")
              = false) by (vm_compute; reflexivity).
  pose proof (proj2 (Hlast _ _ E) F) as S.
  split; [exact E|]. split; [exact F|]. split; [exact S|].
  assert (Hx : In (str "A first long line without a terminal mark")
                  (sanitize three_unfinished_raw))
    by (rewrite S; left; reflexivity).
  destruct (Hel _ Hx) as [H1 [_ [H3 _]]]. split; assumption.
Defined.

(** C4, as stated, fails: of three unfinished long lines the first two are
    returned, and neither ends in [.], [!] or [?]. *)
Lemma sanitize_returns_unfinished_points :
  sanitize three_unfinished_raw
  = [str "A first long line without a terminal mark";
     str "A second long line without a terminal mark"]
  /\ endsWithPunctuation (str "A first long line without a terminal mark") = false
  /\ endsWithPunctuation (str "A second long line without a terminal mark") = false.
Proof. vm_compute. repeat split. Qed.

(** C8, as the code has it. The filter keeps a stripped line exactly when
    it has more than 20 code units: a line of 21 or more is among the parsed
    points, a line of 20 or fewer is neither parsed nor returned. *)
Theorem length_filter_threshold raw x (Hx : In x (strippedLines raw)) :
  (21 <= length x -> In x (parsePoints raw))
  /\ (length x <= 20 -> ~ In x (parsePoints raw) /\ ~ In x (sanitize raw))
  /\ parsePoints raw = filter (fun line => 21 <=? length line) (strippedLines raw).
Proof.
  split; [|split].
  - intros H. apply In_parsePoints. split; [exact Hx | lia].
  - intros H.
    assert (Hn : ~ In x (parsePoints raw)).
    { rewrite In_parsePoints. lia. }
    split; [exact Hn|]. intros Hs. apply Hn, In_sanitize_parsePoints, Hs.
  - reflexivity.
Qed.

Lemma length_filter_threshold_witness :
  let raw := str "Exactly twenty char." in
  In (str "Exactly twenty char.") (strippedLines raw)
  /\ ~ In (str "Exactly twenty char.") (sanitize raw).
Proof.
  assert (Hx : In (str "Exactly twenty char.")
                  (strippedLines (str "Exactly twenty char."))).
  { vm_compute. left. reflexivity. }
  split; [exact Hx|].
  destruct (length_filter_threshold (str "Exactly twenty char.") _ Hx)
    as [_ [H _]].
  apply H. vm_compute. lia.
Defined.

(** C8, as stated, fails at 20: a stripped line of exactly 20 code units,
    ending in a full stop, is discarded. *)
Lemma line_of_twenty_is_discarded :
  let line := str "Exactly twenty char." in
  length line = 20
  /\ strippedLines line = [line]
  /\ endsWithPunctuation line = true
  /\ parsePoints line = []
  /\ sanitize line = [].
Proof. vm_compute. repeat split. Qed.

(** *** A second pass over the joined output *)

Lemma split_nonempty sep s : split sep s <> [].
Proof.
  destruct s as [|c s]; simpl; [discriminate|].
  destruct (c =? sep)%N; [discriminate|].
  destruct (split sep s); discriminate.
Qed.

Lemma split_pieces_noLF s : Forall noLF (split LF s).
Proof.
  induction s as [|c s IH]; simpl.
  - repeat constructor.
  - destruct (c =? LF)%N eqn:E.
    + constructor; [constructor | exact IH].
    + apply N.eqb_neq in E.
      destruct (split LF s) as [|l ls]; [repeat constructor; exact E|].
      inversion IH; subst. constructor; [constructor; assumption | assumption].
Qed.

Lemma split_noLF x : noLF x -> split LF x = [x].
Proof.
  induction 1 as [|c x Hc Hx IH]; simpl; [reflexivity|].
  apply N.eqb_neq in Hc. rewrite Hc, IH. reflexivity.
Qed.

Lemma split_app_LF x rest :
  noLF x -> split LF (x ++ LF :: rest) = x :: split LF rest.
Proof.
  induction 1 as [|c x Hc Hx IH]; simpl.
  - reflexivity.
  - apply N.eqb_neq in Hc. rewrite Hc, IH. reflexivity.
Qed.

Lemma split_join out :
  Forall noLF out -> out <> [] -> split LF (join [LF] out) = out.
Proof.
  induction 1 as [|x l Hx Hl IH]; [congruence|]. intros _.
  destruct l as [|y l].
  - simpl. apply split_noLF, Hx.
  - change (join [LF] (x :: y :: l)) with (x ++ LF :: join [LF] (y :: l)).
    rewrite split_app_LF by exact Hx.
    rewrite IH by discriminate. reflexivity.
Qed.

Lemma stripMarker_noLF x : noLF x -> noLF (stripMarker x).
Proof.
  intros Hx. destruct x as [|c x]; simpl; [constructor|].
  destruct (isMarkerChar c); [|exact Hx].
  apply dropWhile_Forall. inversion Hx; assumption.
Qed.

Lemma strippedLines_noLF raw : Forall noLF (strippedLines raw).
Proof.
  unfold strippedLines, nonEmptyLines. apply Forall_forall. intros x.
  rewrite in_map_iff. intros [line [<- Hline]].
  apply filter_In in Hline as [Hline _].
  apply in_map_iff in Hline as [piece [<- Hpiece]].
  apply trim_Forall, stripMarker_noLF, trim_Forall.
  exact (proj1 (Forall_forall _ _) (split_pieces_noLF raw) _ Hpiece).
Qed.

Lemma stripMarker_no_marker x : startsWithMarker x = false -> stripMarker x = x.
Proof.
  destruct x as [|c x]; simpl; [reflexivity|]. intros ->. reflexivity.
Qed.

Lemma map_fixed (A : Type) (f : A -> A) (l : list A) :
  Forall (fun x => f x = x) l -> map f l = l.
Proof. induction 1; simpl; congruence. Qed.

Lemma filter_all (A : Type) (f : A -> bool) (l : list A) :
  Forall (fun x => f x = true) l -> filter f l = l.
Proof.
  induction 1 as [|x l Hx Hl IH]; simpl; [reflexivity|].
  rewrite Hx, IH. reflexivity.
Qed.

Lemma parsePoints_join out :
  Forall settled out -> parsePoints (join [LF] out) = out.
Proof.
  intros Hout. destruct out as [|x l]; [reflexivity|].
  unfold parsePoints, strippedLines, nonEmptyLines.
  rewrite split_join; [|eapply Forall_impl; [|exact Hout]; intros a Ha; apply Ha
                         |discriminate].
  assert (E1 : map trim (x :: l) = x :: l).
  { apply map_fixed. eapply Forall_impl; [|exact Hout]. intros a Ha. apply Ha. }
  assert (E2 : filter (fun line : jsstring => 0 <? length line) (x :: l) = x :: l).
  { apply filter_all. eapply Forall_impl; [|exact Hout].
    intros a [_ [_ [Ha _]]]. apply Nat.ltb_lt. lia. }
  assert (E3 : map (fun line => trim (stripMarker line)) (x :: l) = x :: l).
  { apply map_fixed. eapply Forall_impl; [|exact Hout].
    intros a [_ [Ht [_ Hm]]].
    rewrite stripMarker_no_marker by exact Hm. exact Ht. }
  rewrite E1.
  match goal with
  | |- context [filter ?f (x :: l)] => replace (filter f (x :: l)) with (x :: l)
  end.
  rewrite E3.
  apply filter_all.
  eapply Forall_impl; [|exact Hout]. intros a [_ [_ [Ha _]]].
  apply Nat.ltb_lt. exact Ha.
Qed.

Lemma sanitize_settled raw :
  Forall (fun x => startsWithMarker x = false) (sanitize raw) ->
  Forall settled (sanitize raw).
Proof.
  intros H. apply Forall_forall. intros x Hx.
  pose proof (proj1 (Forall_forall _ _) H x Hx) as Hm.
  apply In_sanitize_parsePoints, In_parsePoints in Hx as [Hs Hlen].
  repeat split.
  - exact (proj1 (Forall_forall _ _) (strippedLines_noLF raw) _ Hs).
  - exact (strippedLines_trimmed _ _ Hs).
  - exact Hlen.
  - exact Hm.
Qed.

(** C5, as the code has it. When no returned element starts with a
    character of the marker class, a second pass over the returned lines
    joined by line feeds parses them back unchanged and then applies the
    test of the last element again: the result is the same array when it is
    empty or its last element ends in [.], [!] or [?], and the array
    without its last element otherwise, however many elements it has. *)
Theorem second_pass raw
    (Hm : Forall (fun x => startsWithMarker x = false) (sanitize raw)) :
  let out := sanitize raw in
  parsePoints (join [LF] out) = out
  /\ sanitize (join [LF] out) = removeIncompleteLast out
  /\ ((out = [] \/ endsWithPunctuation (last out []) = true) ->
      sanitize (join [LF] out) = out)
  /\ (out <> [] -> endsWithPunctuation (last out []) = false ->
      sanitize (join [LF] out) = removelast out).
Proof.
  intros out.
  assert (Hp : parsePoints (join [LF] out) = out)
    by (apply parsePoints_join, sanitize_settled, Hm).
  split; [exact Hp|].
  assert (Hs : sanitize (join [LF] out) = removeIncompleteLast out)
    by (unfold sanitize at 1; rewrite Hp; reflexivity).
  split; [exact Hs|]. rewrite Hs. split.
  - intros [E|E].
    + rewrite E. reflexivity.
    + destruct out as [|x l]; [reflexivity|].
      unfold removeIncompleteLast. rewrite E. reflexivity.
  - intros Hne E. destruct out as [|x l]; [congruence|].
    unfold removeIncompleteLast. rewrite E. reflexivity.
Qed.

Lemma second_pass_witness :
  Forall (fun x => startsWithMarker x = false) (sanitize two_finished_raw)
  /\ sanitize (join [LF] (sanitize two_finished_raw)) = sanitize two_finished_raw.
Proof.
  assert (Hm : Forall (fun x => startsWithMarker x = false)
                      (sanitize two_finished_raw)).
  { vm_compute. repeat constructor. }
  split; [exact Hm|].
  destruct (second_pass two_finished_raw Hm) as [_ [_ [H _]]].
  apply H. right. vm_compute. reflexivity.
Defined.

(** C5, as stated, fails: three unfinished long lines leave two elements,
    and the second pass removes the second of them, although it is not the
    only one that survived. *)
Lemma second_pass_changes_two_elements :
  sanitize three_unfinished_raw
  = [str "A first long line without a terminal mark";
     str "A second long line without a terminal mark"]
  /\ sanitize (join [LF] (sanitize three_unfinished_raw))
     = [str "A first long line without a terminal mark"].
Proof. vm_compute. split; reflexivity. Qed.

(** ** The keys and the order of the providers *)

Lemma dropWhile_all (p : char16 -> bool) (s : jsstring) :
  Forall (fun c => p c = true) s <-> dropWhile p s = [].
Proof.
  split.
  - induction 1 as [|c s Hc Hs IH]; simpl; [reflexivity|]. rewrite Hc. exact IH.
  - induction s as [|c s IH]; simpl; [constructor|].
    destruct (p c) eqn:E; [|discriminate].
    intros H. constructor; [exact E | exact (IH H)].
Qed.

Lemma trim_empty_iff (k : jsstring) :
  trim k = [] <-> Forall (fun c => isWhiteSpace c = true) k.
Proof.
  split.
  - intros H. apply dropWhile_all.
    pose proof (trim_trimmed k) as _.
    unfold trim, trimEnd, trimStart in H.
    assert (Hr : dropWhile isWhiteSpace (rev (dropWhile isWhiteSpace k)) = []).
    { rewrite <- (rev_involutive (dropWhile _ (rev _))), H. reflexivity. }
    apply dropWhile_all in Hr.
    destruct (dropWhile isWhiteSpace k) as [|c r] eqn:E; [reflexivity|].
    pose proof (dropWhile_head _ _ E) as Hc.
    apply Forall_rev in Hr. rewrite rev_involutive in Hr.
    inversion Hr; congruence.
  - intros H. apply dropWhile_all in H. unfold trim, trimEnd, trimStart.
    rewrite H. reflexivity.
Qed.

Lemma keyAvailable_false_iff (key : option jsstring) :
  AISummarizer.keyAvailable key = false <-> blank key.
Proof.
  destruct key as [k|]; simpl; [|tauto].
  rewrite negb_false_iff, streq_true_iff. apply trim_empty_iff.
Qed.

Section Providers.
Context `{Number}.

Import AISummarizer.

Lemma silent_ret A (a : A) : silent (ret a).
Proof. intros net sent. reflexivity. Qed.

Lemma silent_throw A e : silent (@throw _ A e).
Proof. intros net sent. reflexivity. Qed.

Lemma silent_bind A B (m : M A) (k : A -> M B) :
  silent m -> (forall a, silent (k a)) -> silent (bind m k).
Proof.
  intros Hm Hk net sent. unfold bind.
  specialize (Hm net sent).
  destruct (m net sent) as [[a|e] s]; simpl in *; subst; [apply Hk | reflexivity].
Qed.

Lemma silent_if A (b : bool) (m1 m2 : M A) :
  silent m1 -> silent m2 -> silent (if b then m1 else m2).
Proof. destruct b; tauto. Qed.

Lemma fetch_then_silent A req (k : response -> M A) net sent :
  (forall r, silent (k r)) ->
  snd (bind (fetch req) k net sent) = sent ++ [req].
Proof.
  intros Hk. unfold bind, fetch.
  destruct (net (length sent) req) as [|r]; [reflexivity | apply Hk].
Qed.

Lemma responseJson_silent r : silent (responseJson r).
Proof.
  unfold responseJson. destruct (bodyJson r);
    [apply silent_ret | apply silent_throw].
Qed.

Lemma pointsOfGenerated_silent noText v : silent (pointsOfGenerated noText v).
Proof.
  unfold pointsOfGenerated. apply silent_if; [apply silent_throw|].
  destruct v as [[]|]; try apply silent_throw. apply silent_ret.
Qed.

Lemma groqGeneratedText_silent data : silent (groqGeneratedText data).
Proof. destruct data; try apply silent_ret. apply silent_throw. Qed.

Lemma geminiGeneratedText_silent data : silent (geminiGeneratedText data).
Proof. destruct data; try apply silent_ret. apply silent_throw. Qed.

(** Each provider method sends exactly one request, its own. *)
Lemma summarizeWithGroq_sent this text title net sent :
  snd (summarizeWithGroq this text title net sent)
  = sent ++ [GroqRequest (groqApiKey this)
               {| promptTitle := title; promptContent := truncatedText text |}].
Proof.
  unfold summarizeWithGroq. apply fetch_then_silent. intros r.
  apply silent_if; [apply silent_throw|].
  apply silent_bind; [apply responseJson_silent|]. intros data.
  apply silent_bind; [apply groqGeneratedText_silent|]. intros v.
  apply pointsOfGenerated_silent.
Qed.

Lemma summarizeWithGemini_sent this text title net sent :
  snd (summarizeWithGemini this text title net sent)
  = sent ++ [GeminiRequest (geminiApiKey this)
               {| promptTitle := title; promptContent := truncatedText text |}].
Proof.
  unfold summarizeWithGemini. apply fetch_then_silent. intros r.
  apply silent_if; [apply silent_throw|].
  apply silent_bind; [apply responseJson_silent|]. intros data.
  apply silent_bind; [apply geminiGeneratedText_silent|]. intros v.
  apply pointsOfGenerated_silent.
Qed.

(** [summarize] by the four combinations of available keys. *)
Lemma summarize_unfold this text title net sent :
  summarize this text title net sent
  = let gemini s :=
      if isGeminiAvailable this then summarizeWithGemini this text title net s
      else (Rejected apiKeyRequired, s) in
    if isGroqAvailable this then
      match summarizeWithGroq this text title net sent with
      | (Resolved points, s) => (Resolved points, s)
      | (Rejected _, s) => gemini s
      end
    else gemini sent.
Proof.
  unfold summarize, tryCatch, throw. cbv zeta.
  destruct (isGroqAvailable this), (isGeminiAvailable this); try reflexivity.
  - destruct (summarizeWithGroq this text title net sent) as [[pts|e] s];
      [reflexivity|].
    destruct (summarizeWithGemini this text title net s) as [[pts|e'] s'];
      reflexivity.
  - destruct (summarizeWithGemini this text title net sent) as [[pts|e'] s'];
      reflexivity.
Qed.

End Providers.

(** With the Groq key available and the Gemini key not, a failed Groq
    attempt leaves [summarize] at its final [throw]: the caller gets the
    error about the missing key, whatever the Groq attempt failed with. *)
Lemma summarize_only_groq_fails `{Number} this text title net sent e :
  AISummarizer.isGroqAvailable this = true ->
  AISummarizer.isGeminiAvailable this = false ->
  fst (AISummarizer.summarizeWithGroq this text title net sent) = Rejected e ->
  fst (AISummarizer.summarize this text title net sent)
  = Rejected AISummarizer.apiKeyRequired.
Proof.
  intros Hg Hm He. rewrite summarize_unfold. cbv zeta. rewrite Hg, Hm.
  destruct (AISummarizer.summarizeWithGroq this text title net sent) as [[pts|e'] s];
    simpl in *; [discriminate | reflexivity].
Qed.

(** C1. With only the Groq key configured and the Groq request answered
    with status 500, the Groq attempt fails with its own error, and
    [summarize] rejects with the error about the missing key instead of
    that one, after the one request to Groq. *)
Theorem only_groq_failure_reports_missing_key :
  fst (AISummarizer.summarizeWithGroq groq_only (str "article") (Some (str "Title"))
         network_500 [])
  = Rejected (Error (str "Groq API error: 500 - boom"))
  /\ run (AISummarizer.summarize groq_only (str "article") (Some (str "Title")))
         network_500
     = (Rejected (Error (str "API key required. Please configure Groq or Gemini API key in extension options.")),
        [GroqRequest (Some (str "gsk_live"))
           {| promptTitle := Some (str "Title"); promptContent := str "article" |}]).
Proof. split; vm_compute; reflexivity. Qed.

(** C9. A key that is [null] or white space only is not available.  The
    requests [summarize] sends hold none to a provider whose key is blank,
    and with both keys blank it sends nothing and rejects with the error
    about the missing key. *)
Theorem blank_keys_are_skipped `{Number} this text title net sent :
  (AISummarizer.isGroqAvailable this = false <-> blank (AISummarizer.groqApiKey this))
  /\ (AISummarizer.isGeminiAvailable this = false
      <-> blank (AISummarizer.geminiApiKey this))
  /\ exists new,
       snd (AISummarizer.summarize this text title net sent) = sent ++ new
       /\ (blank (AISummarizer.groqApiKey this) ->
           forallb (fun r => negb (isGroqRequest r)) new = true)
       /\ (blank (AISummarizer.geminiApiKey this) ->
           forallb (fun r => negb (isGeminiRequest r)) new = true)
       /\ (blank (AISummarizer.groqApiKey this) ->
           blank (AISummarizer.geminiApiKey this) ->
           new = []
           /\ AISummarizer.summarize this text title net sent
              = (Rejected AISummarizer.apiKeyRequired, sent)).
Proof.
  split; [apply keyAvailable_false_iff|]. split; [apply keyAvailable_false_iff|].
  rewrite summarize_unfold. cbv zeta.
  pose proof (keyAvailable_false_iff (AISummarizer.groqApiKey this)) as Bg.
  pose proof (keyAvailable_false_iff (AISummarizer.geminiApiKey this)) as Bm.
  fold (AISummarizer.isGroqAvailable this) in Bg.
  fold (AISummarizer.isGeminiAvailable this) in Bm.
  pose proof (summarizeWithGroq_sent this text title net sent) as Sg.
  assert (Hfin : forall new : list request,
    (blank (AISummarizer.groqApiKey this) ->
       forallb (fun r => negb (isGroqRequest r)) new = true) ->
    (blank (AISummarizer.geminiApiKey this) ->
       forallb (fun r => negb (isGeminiRequest r)) new = true) ->
    (blank (AISummarizer.groqApiKey this) ->
       blank (AISummarizer.geminiApiKey this) -> False) ->
    forall r : outcome (list jsstring) * list request, snd r = sent ++ new ->
    exists new,
      snd r = sent ++ new
      /\ (blank (AISummarizer.groqApiKey this) ->
          forallb (fun r => negb (isGroqRequest r)) new = true)
      /\ (blank (AISummarizer.geminiApiKey this) ->
          forallb (fun r => negb (isGeminiRequest r)) new = true)
      /\ (blank (AISummarizer.groqApiKey this) ->
          blank (AISummarizer.geminiApiKey this) ->
          new = [] /\ r = (Rejected AISummarizer.apiKeyRequired, sent))).
  { intros new H1 H2 H3 r Hr. exists new. repeat split; tauto. }
  destruct (AISummarizer.isGroqAvailable this).
  - assert (Ng : ~ blank (AISummarizer.groqApiKey this))
      by (intros B; apply Bg in B; discriminate).
    destruct (AISummarizer.summarizeWithGroq this text title net sent)
      as [[pts|e] s]; simpl in Sg; subst s.
    + eapply Hfin; [idtac .. | reflexivity]; [tauto | intros; reflexivity | tauto].
    + pose proof (summarizeWithGemini_sent this text title net
                    (sent ++ [GroqRequest (AISummarizer.groqApiKey this)
                       {| promptTitle := title;
                          promptContent := AISummarizer.truncatedText text |}])) as Sm.
      destruct (AISummarizer.isGeminiAvailable this).
      * eapply Hfin; [idtac .. | rewrite Sm, <- app_assoc; reflexivity];
          [tauto | | tauto].
        intros B; apply Bm in B; discriminate.
      * eapply Hfin; [idtac .. | reflexivity]; [tauto | intros; reflexivity | tauto].
  - pose proof (summarizeWithGemini_sent this text title net sent) as Sm.
    destruct (AISummarizer.isGeminiAvailable this).
    + assert (Nm : ~ blank (AISummarizer.geminiApiKey this))
        by (intros B; apply Bm in B; discriminate).
      eapply Hfin; [idtac .. | exact Sm]; [intros; reflexivity | tauto | tauto].
    + exists []. split; [simpl; rewrite app_nil_r; reflexivity|].
      repeat split.
Qed.

Lemma blank_keys_are_skipped_witness :
  let this := AISummarizer.new (Some (str "   ")) None in
  blank (AISummarizer.groqApiKey this) /\ blank (AISummarizer.geminiApiKey this)
  /\ AISummarizer.summarize this (str "article") (Some (str "Title")) network_500 []
     = (Rejected AISummarizer.apiKeyRequired, []).
Proof.
  assert (Bg : blank (Some (str "   "))) by (repeat constructor).
  assert (Bm : blank None) by exact I.
  split; [exact Bg|]. split; [exact Bm|].
  destruct (blank_keys_are_skipped
              (AISummarizer.new (Some (str "   ")) None)
              (str "article") (Some (str "Title")) network_500 [])
    as [_ [_ [new [_ [_ [_ Hb]]]]]].
  exact (proj2 (Hb Bg Bm)).
Defined.

(** ** The translation of a batch *)

Section Translation.
Context `{Number}.

Import AISummarizer.

Lemma translatePoint_settles tl text net sent :
  translatePoint tl text net sent
  = (Resolved (itemResult text (net (length sent) (TranslateRequest tl text))),
     if wellFormed text then sent ++ [TranslateRequest tl text] else sent).
Proof.
  unfold translatePoint, tryCatch, translatePointTry, itemResult.
  destruct (wellFormed text); cbn [negb]; [|reflexivity].
  unfold bind, fetch, translationIn.
  destruct (net (length sent) (TranslateRequest tl text)) as [|r]; [reflexivity|].
  cbv beta iota.
  destruct (ok r); cbn [negb]; [|reflexivity].
  unfold responseJson. destruct (bodyJson r) as [data|]; [|reflexivity].
  unfold ret at 1. cbv beta iota.
  destruct (truthy (Some data)) eqn:Td; cbn [andb]; [|reflexivity].
  destruct (getIndex0 data) as [data0|] eqn:E0; [|reflexivity].
  destruct (truthy (Some data0)) eqn:T0.
  - unfold joinSegments. destruct data0; try reflexivity.
    destruct (existsb _ items); [reflexivity|].
    destruct (joinAll (map getIndex0 items)); reflexivity.
  - destruct data0; try reflexivity; simpl in T0; discriminate.
Qed.

Lemma promiseAll_translate tl net points : forall sent,
  exists out sent',
    promiseAll (map (fun p => translatePoint tl p) points) net sent
    = (Resolved out, sent')
    /\ length out = length points
    /\ forall i text, nth_error points i = Some text ->
         nth_error out i
         = Some (itemResult text
                   (net (requestIndex sent points i) (TranslateRequest tl text))).
Proof.
  induction points as [|p ps IH]; intros sent.
  - exists [], sent. split; [reflexivity|]. split; [reflexivity|].
    intros [|i] text; discriminate.
  - simpl map. simpl promiseAll. rewrite translatePoint_settles.
    set (sent1 := if wellFormed p then sent ++ [TranslateRequest tl p] else sent).
    destruct (IH sent1) as [out [sent' [E [L N]]]].
    rewrite E. eexists. eexists. split; [reflexivity|].
    split; [simpl; congruence|].
    intros [|i] text Hi; simpl in Hi.
    + injection Hi as <-. simpl. unfold requestIndex. simpl.
      rewrite Nat.add_0_r. reflexivity.
    + simpl. rewrite (N i text Hi). f_equal. f_equal. f_equal.
      unfold requestIndex, sent1. simpl.
      destruct (wellFormed p); simpl; [|reflexivity].
      rewrite length_app. simpl. lia.
Qed.

(** A body of the documented shape is read as the specification says. *)
Lemma segmentTexts_joinAll segments translated :
  segmentTexts segments = Some translated ->
  existsb (fun s => match s with JNull => true | _ => false end) segments = false
  /\ joinAll (map getIndex0 segments) = Some translated.
Proof.
  revert translated. induction segments as [|s rest IH]; intros translated.
  - intros [= <-]. split; reflexivity.
  - simpl segmentTexts. destruct (segmentText s) as [here|] eqn:Es; [|discriminate].
    destruct (segmentTexts rest) as [there|]; [|discriminate].
    intros [= <-]. destruct (IH there eq_refl) as [Hn Hj].
    destruct s as [| | | |[|[| | |t| |] items]|]; try discriminate Es.
    injection Es as <-. split.
    + simpl. exact Hn.
    + simpl map. simpl joinAll. rewrite Hj. reflexivity.
Qed.

Lemma itemResult_specTranslation text r data translated :
  wellFormed text = true -> ok r = true -> bodyJson r = Some data ->
  specTranslation data = Some translated ->
  itemResult text (FetchGives r) = translated.
Proof.
  intros Hw Hok Hd Ht. unfold itemResult, translationIn.
  rewrite Hw, Hok, Hd.
  destruct data as [| | | |[|[| | | |[|s rest]|] more]|]; try discriminate Ht.
  unfold specTranslation in Ht.
  destruct (segmentTexts_joinAll _ Ht) as [Hn Hj].
  cbn [truthy getIndex0]. rewrite Hn, Hj. reflexivity.
Qed.

Lemma itemResult_detectedFailure text answer :
  detectedFailure text answer -> itemResult text answer = text.
Proof.
  unfold itemResult. destruct (wellFormed text) eqn:Hw; [|reflexivity].
  intros Hf.
  assert (T : translationIn answer = None); [|rewrite T; reflexivity].
  unfold translationIn.
  destruct Hf as [answer Hn | | r Hok | r Hj | r data Hj Ht | r data Hj Ht
                 | r data Hj Ha | r data segments Hj Hs Hi
                 | r data segments Hj Hs Hc].
  - congruence.
  - reflexivity.
  - rewrite Hok. reflexivity.
  - rewrite Hj. destruct (ok r); reflexivity.
  - rewrite Hj, Ht. destruct (ok r); reflexivity.
  - rewrite Hj. destruct (ok r); [|reflexivity].
    destruct (truthy (Some data)); [|reflexivity].
    destruct (getIndex0 data) as [[]|]; try reflexivity. discriminate Ht.
  - rewrite Hj. destruct (ok r); [|reflexivity].
    destruct (truthy (Some data)); [|reflexivity].
    destruct (getIndex0 data) as [[]|] eqn:E; try reflexivity.
    exfalso. eapply Ha. reflexivity.
  - rewrite Hj, Hs. destruct (ok r); [|reflexivity].
    destruct (truthy (Some data)); [|reflexivity].
    assert (X : existsb (fun s => match s with JNull => true | _ => false end)
                  segments = true)
      by (apply existsb_exists; exists JNull; split; [exact Hi | reflexivity]).
    rewrite X. reflexivity.
  - rewrite Hj, Hs, Hc. destruct (ok r); [|reflexivity].
    destruct (truthy (Some data)); [|reflexivity].
    destruct (existsb _ segments); reflexivity.
Qed.

End Translation.

(** C6, as the code has it.  [translate] always resolves, with an array as
    long as its input.  Each element is what its own item becomes under the
    answer to its own request, so no answer to another item's request enters
    it.  It is the translation when the answer is a success whose body has
    the shape the specification gives, and the item itself under every
    failure [translatePoint] detects. *)
Theorem translate_batch `{Number} points targetLanguage net sent :
  exists out sent',
    AISummarizer.translate points targetLanguage net sent = (Resolved out, sent')
    /\ length out = length points
    /\ forall i text, nth_error points i = Some text ->
         let answer := net (requestIndex sent points i)
                           (TranslateRequest (AISummarizer.langCode targetLanguage) text) in
         nth_error out i = Some (itemResult text answer)
         /\ (forall r data translated,
               AISummarizer.wellFormed text = true ->
               answer = FetchGives r -> ok r = true -> bodyJson r = Some data ->
               specTranslation data = Some translated ->
               nth_error out i = Some translated)
         /\ (detectedFailure text answer -> nth_error out i = Some text).
Proof.
  destruct (promiseAll_translate (AISummarizer.langCode targetLanguage) net points sent)
    as [out [sent' [E [L N]]]].
  exists out, sent'. split.
  - unfold AISummarizer.translate, tryCatch. cbv zeta. rewrite E. reflexivity.
  - split; [exact L|]. intros i text Hi. cbv zeta.
    rewrite (N i text Hi). split; [reflexivity|]. split.
    + intros r data translated Hw -> Hok Hd Ht.
      rewrite (itemResult_specTranslation text r Hw Hok Hd Ht). reflexivity.
    + intros Hf. rewrite (itemResult_detectedFailure Hf). reflexivity.
Qed.

(** The example of the specification: the second item falls back to its own
    text, the others are translated, the order stays. *)
Lemma translate_batch_witness :
  exists sent',
    AISummarizer.translate spec_batch (str "Hindi") spec_batch_network []
    = (Resolved [str "T"; str "Subtitle"; str "A"; str "B"], sent').
Proof.
  destruct (translate_batch spec_batch (str "Hindi") spec_batch_network [])
    as [out [sent' [E [L N]]]].
  exists sent'. rewrite E. f_equal.
  destruct out as [|a [|b [|c [|d [|e out]]]]]; try discriminate L.
  cbv zeta in N.
  destruct (N 0 _ eq_refl) as [_ [T0 _]].
  destruct (N 1 _ eq_refl) as [_ [_ F1]].
  destruct (N 2 _ eq_refl) as [_ [T2 _]].
  destruct (N 3 _ eq_refl) as [_ [T3 _]].
  specialize (T0 _ _ (str "T") eq_refl eq_refl eq_refl eq_refl eq_refl).
  specialize (F1 (NetworkFailure _)).
  specialize (T2 _ _ (str "A") eq_refl eq_refl eq_refl eq_refl eq_refl).
  specialize (T3 _ _ (str "B") eq_refl eq_refl eq_refl eq_refl eq_refl).
  simpl in T0, F1, T2, T3.
  injection T0 as ->. injection F1 as ->. injection T2 as ->. injection T3 as ->.
  reflexivity.
Defined.

(** C6, as stated, fails: a success response that is JSON of the wrong
    shape is not always detected.  Neither [[[5,{}]]] nor [[[[{}]]]] is a
    translation, yet [translate] resolves with the empty string in place of
    the first item and with [[object Object]] in place of the second, and
    not with the items themselves. *)
Lemma wrong_shape_is_not_detected :
  specTranslation segments_without_text = None
  /\ specTranslation segment_of_object = None
  /\ run (AISummarizer.translate [str "Title"; str "Subtitle"] (str "Hindi"))
         wrong_shape_network
     = (Resolved [[]; str "[object Object]"],
        [TranslateRequest (Code (str "hi")) (str "Title");
         TranslateRequest (Code (str "hi")) (str "Subtitle")])
  /\ [[]; str "[object Object]"] <> [str "Title"; str "Subtitle"].
Proof.
  split; [reflexivity|]. split; [reflexivity|].
  split; [vm_compute; reflexivity | discriminate].
Qed.

(** ** The session cache *)

Section Cache.
Context `{Number} `{Content.Browser}.

Import Content.

Lemma cacheGet_cacheOf k st st' :
  cacheOf st' = cacheOf st -> cacheGet k st' = cacheGet k st.
Proof.
  unfold cacheOf, cacheGet. intros [= -> -> ->]. reflexivity.
Qed.

(** A read gives what is stored, and only under the stored key. *)
Lemma cacheGet_Some k st t points :
  cacheGet k st = Some (t, points) ->
  cachedUrl st = Some k /\ cachedSummary st = Some points /\ cachedTitle st = Some t.
Proof.
  unfold cacheGet.
  destruct (cachedUrl st) as [url|]; [|discriminate].
  destruct (cachedSummary st) as [pts|]; [|discriminate].
  destruct (cachedTitle st) as [[|c t']|]; try discriminate.
  destruct (streq url k) eqn:E; [|discriminate].
  apply streq_true_iff in E. subst. intros [= <- <-]. repeat split.
Qed.




(** [handleTranslate] assigns none of the three variables. *)
Lemma cacheOf_handleTranslate network st :
  cacheOf (handleTranslate network st) = cacheOf st.
Proof.
  unfold handleTranslate.
  destruct (summarizer st) as [this|]; [|reflexivity].
  destruct (summaryPanel st) as [p|]; [|reflexivity].
  destruct (toTranslate st p) as [texts m].
  destruct (run _ network) as [[translatedResult|e] sent]; [|reflexivity].
  destruct (applyHeader translatedResult _) as [p' contentResults].
  destruct m; [reflexivity | destruct contentResults; reflexivity | reflexivity].
Qed.

(** [afterSummarize] writes the cache in one case only: a result that is a
    non-empty array. *)
Lemma cacheOf_afterSummarize currentUrl a result p st :
  match result with
  | Resolved (Some (x :: l)) =>
      cacheOf (afterSummarize currentUrl a result p st)
      = (Some currentUrl, Some (x :: l), title a)
  | _ => cacheOf (afterSummarize currentUrl a result p st) = cacheOf st
  end.
Proof. destruct result as [[[|x l]|]|e]; reflexivity. Qed.






End Cache.

(** *** The claims on the cache *)

(** C7. The cache is one slot: after a put for one page a read for any
    other page finds nothing, a second put for another page makes the first
    page's entry unreadable, and a read that finds something finds what was
    put, under the key it was put with. *)
Theorem cache_single_slot st urlA urlB pointsA titleA pointsB titleB
    (Hne : urlA <> urlB) :
  Content.cacheGet urlB (Content.cachePut urlA pointsA titleA st) = None
  /\ Content.cacheGet urlA
       (Content.cachePut urlB pointsB titleB
          (Content.cachePut urlA pointsA titleA st)) = None
  /\ (forall k t points,
        Content.cacheGet k (Content.cachePut urlA pointsA titleA st)
        = Some (t, points) ->
        k = urlA /\ points = pointsA /\ titleA = Some t).
Proof.
  assert (E1 : streq urlA urlB = false) by (apply streq_false_iff; exact Hne).
  assert (E2 : streq urlB urlA = false) by (apply streq_false_iff; congruence).
  split; [|split].
  - unfold Content.cacheGet, Content.cachePut. simpl. rewrite E1.
    destruct titleA as [[|c t]|]; reflexivity.
  - unfold Content.cacheGet, Content.cachePut. simpl. rewrite E2.
    destruct titleB as [[|c t]|]; reflexivity.
  - intros k t points Hk. apply cacheGet_Some in Hk as [Hu [Hs Ht]].
    simpl in Hu, Hs, Ht. split; [congruence|]. split; congruence.
Qed.

Lemma cache_single_slot_witness :
  Content.cacheGet (str "urlB")
    (Content.cachePut (str "urlA") [str "A."] (Some (str "Title A")) Content.initial)
  = None
  /\ Content.cacheGet (str "urlA")
       (Content.cachePut (str "urlA") [str "A."] (Some (str "Title A")) Content.initial)
     = Some (str "Title A", [str "A."]).
Proof.
  assert (Hne : str "urlA" <> str "urlB") by (vm_compute; discriminate).
  split; [|vm_compute; reflexivity].
  exact (proj1 (cache_single_slot Content.initial [str "A."] (Some (str "Title A"))
                  [str "B."] (Some (str "Title B")) Hne)).
Defined.

(** C2, as the code has it. When the panel shows a summary list and there
    are current points, [handleTranslate] gets a translated array from
    [translate], puts its elements after the two header texts in place of
    the current points and of the list shown, and assigns none of the three
    cache variables: a read of the cache gives what it gave before. *)
Theorem translate_keeps_cache `{Number} `{Content.Browser}
    network st this p items
    (Hs : Content.summarizer st = Some this)
    (Hp : Content.summaryPanel st = Some p)
    (Hc : Content.contentDiv p = Content.SummaryList items)
    (Hn : Content.currentSummaryPoints st <> []) :
  let st' := Content.handleTranslate network st in
  exists t u translated sent',
    run (AISummarizer.translate
           ([Content.titleEl p; Content.subtitleEl p] ++ Content.currentSummaryPoints st)
           (str "Hindi")) network
    = (Resolved (t :: u :: translated), sent')
    /\ length translated = length (Content.currentSummaryPoints st)
    /\ Content.currentSummaryPoints st' = translated
    /\ (exists p', Content.summaryPanel st' = Some p'
                   /\ Content.contentDiv p' = Content.SummaryList translated)
    /\ Content.cachedUrl st' = Content.cachedUrl st
    /\ Content.cachedSummary st' = Content.cachedSummary st
    /\ Content.cachedTitle st' = Content.cachedTitle st
    /\ (forall k, Content.cacheGet k st' = Content.cacheGet k st).
Proof.
  intros st'.
  destruct (promiseAll_translate (AISummarizer.langCode (str "Hindi")) network
              ([Content.titleEl p; Content.subtitleEl p]
               ++ Content.currentSummaryPoints st) [])
    as [out [sent' [E0 [L _]]]].
  assert (E : AISummarizer.translate
                ([Content.titleEl p; Content.subtitleEl p]
                 ++ Content.currentSummaryPoints st) (str "Hindi") network []
              = (Resolved out, sent')).
  { unfold AISummarizer.translate, tryCatch. cbv zeta. rewrite E0. reflexivity. }
  destruct out as [|t [|u translated]]; try discriminate L.
  exists t, u, translated, sent'.
  split; [exact E|].
  split; [simpl in L; lia|].
  pose proof (cacheOf_handleTranslate network st) as C.
  fold st' in C. unfold cacheOf in C. injection C as C1 C2 C3.
  assert (Hst : st' = Content.setPanel
            (Some (Content.setButton Content.Translated false
               (Content.displayPoints translated
                  (Content.setHeader t u
                     (Content.setButton Content.Translating true p)))))
            (Content.setCurrentSummaryPoints translated st)).
  { unfold st', Content.handleTranslate. rewrite Hs, Hp.
    unfold Content.toTranslate. rewrite Hc.
    destruct (Content.currentSummaryPoints st) as [|x l] eqn:Ec; [congruence|].
    unfold run in *. rewrite E. reflexivity. }
  split; [rewrite Hst; reflexivity|].
  split; [rewrite Hst; eexists; split; reflexivity|].
  split; [exact C1|]. split; [exact C2|]. split; [exact C3|].
  intros k. unfold Content.cacheGet. rewrite C1, C2, C3. reflexivity.
Qed.

Lemma translate_keeps_cache_witness :
  let st' := Content.handleTranslate (session_network two_finished_raw) summarised in
  Content.currentSummaryPoints st' = [str "anuvaad"; str "anuvaad"]
  /\ Content.cachedSummary st' = Content.cachedSummary summarised.
Proof.
  assert (Hs : Content.summarizer summarised = Some groq_only)
    by (vm_compute; reflexivity).
  assert (Hn : Content.currentSummaryPoints summarised <> [])
    by (vm_compute; discriminate).
  destruct (Content.summaryPanel summarised) as [p|] eqn:Hp;
    [|vm_compute in Hp; discriminate].
  assert (Hc : Content.contentDiv p
               = Content.SummaryList (sanitize two_finished_raw)).
  { vm_compute in Hp. injection Hp as <-. vm_compute. reflexivity. }
  destruct (translate_keeps_cache (session_network two_finished_raw)
              summarised Hs Hp Hc Hn)
    as [t [u [translated [sent' [E [_ [Hcur [_ [_ [Hsum _]]]]]]]]]].
  split; [|exact Hsum].
  rewrite Hcur.
  vm_compute in Hp. injection Hp as <-.
  vm_compute in E. injection E as _ _ <- _. reflexivity.
Defined.

(** C2, as stated, fails. On a summarised page a translation that succeeds
    replaces the current points and leaves the stored points as they were:
    the cache read for the page gives the original points after it as
    before it, and the panel closed and opened again shows them, with no
    request to any provider. *)
Lemma translation_does_not_reach_cache :
  let url := str "https://example.org/a" in
  let original := [str "The first sentence is long enough to stay.";
                   str "The second sentence is long enough as well!"] in
  let offline : Content.page :=
    {| Content.href := url; Content.storage := None;
       Content.extracted := None; Content.net := fun _ _ => FetchFails |} in
  let translated :=
    Content.step summarised (Content.TranslateClick (session_network two_finished_raw)) in
  let reopened :=
    Content.step (Content.step translated Content.Close) (Content.ButtonClick offline) in
  Content.cacheGet url summarised = Some (str "Title", original)
  /\ Content.currentSummaryPoints translated = [str "anuvaad"; str "anuvaad"]
  /\ option_map Content.contentDiv (Content.summaryPanel translated)
     = Some (Content.SummaryList [str "anuvaad"; str "anuvaad"])
  /\ Content.cachedSummary translated = Some original
  /\ Content.cacheGet url translated = Some (str "Title", original)
  /\ option_map Content.contentDiv (Content.summaryPanel reopened)
     = Some (Content.SummaryList original).
Proof. vm_compute. repeat split. Qed.



(** * Further properties *)

(** ** The sanitisation, line by line *)

Lemma infix_refl s : infix s s.
Proof. exists [], []. simpl. rewrite app_nil_r. reflexivity. Qed.

Lemma infix_trans x y z : infix x y -> infix y z -> infix x z.
Proof.
  intros [a [b ->]] [c [d ->]]. exists (c ++ a), (b ++ d).
  repeat rewrite <- app_assoc. reflexivity.
Qed.

Lemma infix_length x s : infix x s -> length x <= length s.
Proof. intros [a [b ->]]. repeat rewrite length_app. lia. Qed.

Lemma dropWhile_infix p s : infix (dropWhile p s) s.
Proof.
  destruct (dropWhile_suffix p s) as [pre E]. exists pre, [].
  rewrite app_nil_r. exact E.
Qed.

Lemma rev_infix x s : infix x s -> infix (rev x) (rev s).
Proof.
  intros [a [b ->]]. exists (rev b), (rev a).
  repeat rewrite rev_app_distr. rewrite <- app_assoc. reflexivity.
Qed.

Lemma trim_infix s : infix (trim s) s.
Proof.
  unfold trim, trimEnd, trimStart.
  eapply infix_trans; [|apply dropWhile_infix].
  rewrite <- (rev_involutive (dropWhile isWhiteSpace s)) at 2.
  apply rev_infix, dropWhile_infix.
Qed.

Lemma stripMarker_infix s : infix (stripMarker s) s.
Proof.
  destruct s as [|c s]; simpl; [apply infix_refl|].
  destruct (isMarkerChar c); [|apply infix_refl].
  destruct (dropWhile_suffix isWhiteSpace s) as [pre E].
  exists (c :: pre), []. rewrite app_nil_r. simpl. congruence.
Qed.

(** The first piece of a split is a prefix, every piece is an infix. *)
Lemma split_pieces_infix sep s :
  (exists l ls rest, split sep s = l :: ls /\ s = l ++ rest)
  /\ forall piece, In piece (split sep s) -> infix piece s.
Proof.
  induction s as [|c s [[l [ls [rest [E Es]]]] IH]]; simpl.
  - split; [exists [], [], []; split; reflexivity|].
    intros piece [<-|[]]. apply infix_refl.
  - assert (Hin : forall piece, In piece (split sep s) -> infix piece (c :: s)).
    { intros piece Hp. destruct (IH piece Hp) as [a [b Eab]].
      exists (c :: a), b. simpl. f_equal. exact Eab. }
    destruct (c =? sep)%N.
    + split; [exists [], (split sep s), (c :: s); split; reflexivity|].
      intros piece [<-|Hp]; [|apply Hin, Hp].
      exists [], (c :: s). reflexivity.
    + rewrite E.
      split; [exists (c :: l), ls, rest; split;
              [reflexivity | simpl; f_equal; exact Es]|].
      intros piece [<-|Hp].
      * exists [], rest. simpl. f_equal. exact Es.
      * apply Hin. rewrite E. right. exact Hp.
Qed.

Lemma strippedLines_infix raw x : In x (strippedLines raw) -> infix x raw.
Proof.
  unfold strippedLines, nonEmptyLines. rewrite in_map_iff.
  intros [line [<- Hline]].
  apply filter_In in Hline as [Hline _].
  apply in_map_iff in Hline as [piece [<- Hpiece]].
  eapply infix_trans; [apply trim_infix|].
  eapply infix_trans; [apply stripMarker_infix|].
  eapply infix_trans; [apply trim_infix|].
  exact (proj2 (split_pieces_infix LF raw) _ Hpiece).
Qed.

(** X1. The sanitisation adds no text: every returned element occurs in
    the raw text as a run of consecutive code units.  So no element is
    longer than the raw text, and a raw text of at most 20 code units gives
    the empty array. *)
Theorem sanitize_returns_runs_of_the_text raw :
  (forall x, In x (sanitize raw) -> infix x raw /\ length x <= length raw)
  /\ (length raw <= 20 -> sanitize raw = []).
Proof.
  assert (H : forall x, In x (sanitize raw) -> infix x raw).
  { intros x Hx. apply In_sanitize_parsePoints, In_parsePoints in Hx as [Hx _].
    apply strippedLines_infix, Hx. }
  split.
  - intros x Hx. split; [apply H, Hx | apply infix_length, H, Hx].
  - intros Hlen. destruct (sanitize raw) as [|x l] eqn:E; [reflexivity|].
    assert (Hx : In x (sanitize raw)) by (rewrite E; left; reflexivity).
    assert (Hi : infix x raw) by (apply H; left; reflexivity).
    apply infix_length in Hi.
    apply In_sanitize_parsePoints, In_parsePoints in Hx as [_ Hx]. lia.
Qed.

Lemma split_app_sep sep a b :
  split sep (a ++ sep :: b) = split sep a ++ split sep b.
Proof.
  induction a as [|c a IH]; simpl.
  - rewrite N.eqb_refl. reflexivity.
  - destruct (c =? sep)%N; rewrite IH; [reflexivity|].
    destruct (split sep a) as [|l ls] eqn:E; [|reflexivity].
    exfalso. exact (split_nonempty sep a E).
Qed.

Lemma parsePoints_lines a b :
  parsePoints (a ++ LF :: b) = parsePoints a ++ parsePoints b.
Proof.
  unfold parsePoints, strippedLines, nonEmptyLines.
  rewrite split_app_sep, map_app, filter_app, map_app, filter_app. reflexivity.
Qed.

Lemma last_of_app (A : Type) (l1 l2 : list A) (d : A) :
  l2 <> [] -> last (l1 ++ l2) d = last l2 d.
Proof.
  intros Hne. induction l1 as [|x l1 IH]; [reflexivity|].
  simpl. destruct (l1 ++ l2) eqn:E; [|exact IH].
  apply app_eq_nil in E as [_ E]. congruence.
Qed.

Lemma removeIncompleteLast_app l1 l2 :
  l2 <> [] -> removeIncompleteLast (l1 ++ l2) = l1 ++ removeIncompleteLast l2.
Proof.
  intros Hne. destruct l2 as [|y l2]; [congruence|].
  assert (E : removeIncompleteLast (l1 ++ y :: l2)
              = if endsWithPunctuation (last (l1 ++ y :: l2) [])
                then l1 ++ y :: l2 else removelast (l1 ++ y :: l2)).
  { destruct l1; reflexivity. }
  rewrite E. rewrite last_of_app by discriminate.
  unfold removeIncompleteLast.
  destruct (endsWithPunctuation (last (y :: l2) [])); [reflexivity|].
  apply removelast_app. discriminate.
Qed.

(** X2. Lines are handled one by one and only the very last parsed line is
    tested: for two texts put on separate lines, the parsed points are
    those of the first followed by those of the second; the returned array
    is the parsed points of the first followed by the array of the second
    when the second has a parsed point, and the array of the first alone
    when it has none. *)
Theorem sanitize_of_two_parts a b :
  parsePoints (a ++ LF :: b) = parsePoints a ++ parsePoints b
  /\ (parsePoints b <> [] -> sanitize (a ++ LF :: b) = parsePoints a ++ sanitize b)
  /\ (parsePoints b = [] -> sanitize (a ++ LF :: b) = sanitize a).
Proof.
  split; [apply parsePoints_lines|]. unfold sanitize. rewrite parsePoints_lines.
  split.
  - intros Hne. apply removeIncompleteLast_app, Hne.
  - intros ->. rewrite app_nil_r. reflexivity.
Qed.

(** ** The providers *)

Section ProviderFacts.
Context `{Number}.

Import AISummarizer.

(** X3. The article text a provider gets is the text itself up to 25000
    code units, and otherwise its first 25000 units followed by three
    dots: never more than 25003 units, and always the same first 25000
    units as the text. *)
Theorem truncatedText_bounds text :
  length (truncatedText text) <= maxChars + 3
  /\ firstn maxChars (truncatedText text) = firstn maxChars text
  /\ (length text <= maxChars -> truncatedText text = text)
  /\ (maxChars < length text ->
      truncatedText text = firstn maxChars text ++ str "..."
      /\ length (truncatedText text) = maxChars + 3).
Proof.
  unfold truncatedText, substring0. generalize maxChars as n. intros n.
  destruct (Nat.ltb_spec n (length text)) as [Hlt|Hle].
  - assert (L : length (firstn n text) = n) by (apply firstn_length_le; lia).
    assert (L3 : length (str "...") = 3) by reflexivity.
    repeat split.
    + rewrite length_app, L, L3. lia.
    + rewrite firstn_app, L, Nat.sub_diag. simpl. rewrite app_nil_r.
      rewrite firstn_firstn. f_equal. lia.
    + intros. lia.
    + rewrite length_app, L, L3. reflexivity.
  - repeat split; try lia.
Qed.

(** What [pointsOfGenerated] gives: the sanitised text when the value is a
    non-empty string, an error otherwise. *)
Lemma pointsOfGenerated_resolved noText v net sent pts :
  fst (pointsOfGenerated noText v net sent) = Resolved pts
  <-> exists s, v = Some (JStr s) /\ s <> [] /\ pts = sanitize s.
Proof.
  unfold pointsOfGenerated. split.
  - destruct v as [[|b|n|s|items|props]|]; simpl;
      try discriminate;
      try (destruct b; discriminate);
      try (destruct (numberTruthy n); discriminate).
    destruct s as [|c s]; simpl; [discriminate|].
    intros [= <-]. exists (c :: s). repeat split. discriminate.
  - intros [s [-> [Hs ->]]]. destruct s as [|c s]; [congruence|]. reflexivity.
Qed.

Lemma pointsOfGenerated_rejected noText v net sent e :
  fst (pointsOfGenerated noText v net sent) = Rejected e ->
  e = Error noText \/ e = TypeError.
Proof.
  unfold pointsOfGenerated.
  destruct v as [[|b|n|s|items|props]|]; simpl;
    try (intros [= <-]; tauto);
    try (destruct b; intros [= <-]; tauto);
    try (destruct (numberTruthy n); intros [= <-]; tauto).
  destruct s; simpl; [intros [= <-]; tauto | discriminate].
Qed.

(** [summarizeWithGroq] and [summarizeWithGemini], by the answer to their
    request. *)
Lemma summarizeWithGroq_unfold this text title net sent :
  summarizeWithGroq this text title net sent
  = let sent' := sent ++ [groqRequest this text title] in
    match net (length sent) (groqRequest this text title) with
    | FetchFails => (Rejected NetworkError, sent')
    | FetchGives r =>
        if ok r then
          match bodyJson r with
          | None => (Rejected SyntaxError, sent')
          | Some JNull => (Rejected TypeError, sent')
          | Some data =>
              pointsOfGenerated (str "No text generated from Groq API")
                (groqContent data) net sent'
          end
        else (Rejected (Error (str "Groq API error: " ++ statusToString (status r)
                               ++ str " - " ++ bodyText r)), sent')
    end.
Proof.
  unfold summarizeWithGroq, groqRequest, bind, fetch. cbv zeta.
  destruct (net (length sent) _) as [|r]; [reflexivity|]. cbv beta iota.
  destruct (ok r); cbn [negb]; [|reflexivity].
  unfold responseJson. destruct (bodyJson r) as [data|]; [|reflexivity].
  destruct data; reflexivity.
Qed.

Lemma summarizeWithGemini_unfold this text title net sent :
  summarizeWithGemini this text title net sent
  = let sent' := sent ++ [geminiRequest this text title] in
    match net (length sent) (geminiRequest this text title) with
    | FetchFails => (Rejected NetworkError, sent')
    | FetchGives r =>
        if ok r then
          match bodyJson r with
          | None => (Rejected SyntaxError, sent')
          | Some JNull => (Rejected TypeError, sent')
          | Some data =>
              pointsOfGenerated (str "No text generated from API")
                (geminiContent data) net sent'
          end
        else (Rejected (Error (geminiErrorMessage r)), sent')
    end.
Proof.
  unfold summarizeWithGemini, geminiRequest, bind, fetch. cbv zeta.
  destruct (net (length sent) _) as [|r]; [reflexivity|]. cbv beta iota.
  destruct (ok r); cbn [negb]; [|reflexivity].
  unfold responseJson. destruct (bodyJson r) as [data|]; [|reflexivity].
  destruct data; reflexivity.
Qed.

Lemma summarizeWithGroq_resolved this text title net sent pts :
  fst (summarizeWithGroq this text title net sent) = Resolved pts ->
  exists r data s,
    net (length sent) (groqRequest this text title) = FetchGives r
    /\ ok r = true /\ bodyJson r = Some data
    /\ groqContent data = Some (JStr s) /\ s <> [] /\ pts = sanitize s.
Proof.
  rewrite summarizeWithGroq_unfold. cbv zeta.
  destruct (net (length sent) _) as [|r] eqn:Hn; [discriminate|].
  destruct (ok r) eqn:Hok; [|discriminate].
  destruct (bodyJson r) as [data|] eqn:Hb; [|discriminate].
  intros Hp.
  assert (Hv : exists s, groqContent data = Some (JStr s) /\ s <> [] /\ pts = sanitize s).
  { destruct data; try discriminate Hp;
      exact (proj1 (pointsOfGenerated_resolved _ _ _ _ _) Hp). }
  destruct Hv as [s [Hc [Hs Hpts]]]. exists r, data, s. tauto.
Qed.

Lemma summarizeWithGemini_resolved this text title net sent pts :
  fst (summarizeWithGemini this text title net sent) = Resolved pts ->
  exists r data s,
    net (length sent) (geminiRequest this text title) = FetchGives r
    /\ ok r = true /\ bodyJson r = Some data
    /\ geminiContent data = Some (JStr s) /\ s <> [] /\ pts = sanitize s.
Proof.
  rewrite summarizeWithGemini_unfold. cbv zeta.
  destruct (net (length sent) _) as [|r] eqn:Hn; [discriminate|].
  destruct (ok r) eqn:Hok; [|discriminate].
  destruct (bodyJson r) as [data|] eqn:Hb; [|discriminate].
  intros Hp.
  assert (Hv : exists s, geminiContent data = Some (JStr s) /\ s <> [] /\ pts = sanitize s).
  { destruct data; try discriminate Hp;
      exact (proj1 (pointsOfGenerated_resolved _ _ _ _ _) Hp). }
  destruct Hv as [s [Hc [Hs Hpts]]]. exists r, data, s. tauto.
Qed.

(** X4. [summarizeWithGroq] resolves exactly when its request is answered
    with a success status, a JSON body, and a non-empty string at
    [choices[0].message.content]; what it resolves with is the sanitised
    form of that string. *)
Theorem groq_resolves_exactly_when this text title net sent pts :
  fst (summarizeWithGroq this text title net sent) = Resolved pts
  <-> exists r data s,
        net (length sent) (groqRequest this text title) = FetchGives r
        /\ ok r = true /\ bodyJson r = Some data
        /\ groqContent data = Some (JStr s) /\ s <> [] /\ pts = sanitize s.
Proof.
  split; [apply summarizeWithGroq_resolved|].
  intros [r [data [s [Hn [Hok [Hb [Hc [Hs ->]]]]]]]].
  rewrite summarizeWithGroq_unfold. cbv zeta. rewrite Hn, Hok, Hb.
  assert (Hp : forall sent',
    fst (pointsOfGenerated (str "No text generated from Groq API")
           (groqContent data) net sent') = Resolved (sanitize s)).
  { intros sent'. apply pointsOfGenerated_resolved. exists s. tauto. }
  destruct data; try apply Hp. discriminate Hc.
Qed.

(** X5. [summarizeWithGemini] resolves exactly when its request is
    answered with a success status, a JSON body, and a non-empty string at
    [candidates[0].content.parts[0].text]; what it resolves with is the
    sanitised form of that string, by the same sanitisation as Groq's. *)
Theorem gemini_resolves_exactly_when this text title net sent pts :
  fst (summarizeWithGemini this text title net sent) = Resolved pts
  <-> exists r data s,
        net (length sent) (geminiRequest this text title) = FetchGives r
        /\ ok r = true /\ bodyJson r = Some data
        /\ geminiContent data = Some (JStr s) /\ s <> [] /\ pts = sanitize s.
Proof.
  split; [apply summarizeWithGemini_resolved|].
  intros [r [data [s [Hn [Hok [Hb [Hc [Hs ->]]]]]]]].
  rewrite summarizeWithGemini_unfold. cbv zeta. rewrite Hn, Hok, Hb.
  assert (Hp : forall sent',
    fst (pointsOfGenerated (str "No text generated from API")
           (geminiContent data) net sent') = Resolved (sanitize s)).
  { intros sent'. apply pointsOfGenerated_resolved. exists s. tauto. }
  destruct data; try apply Hp. discriminate Hc.
Qed.

End ProviderFacts.

(** ** The order of the providers *)

Section OrchestratorFacts.
Context `{Number}.

Import AISummarizer.

(** [summarize] by what the Groq attempt gives. *)
Lemma summarize_cases this text title net sent :
  summarize this text title net sent
  = let sentG := sent ++ [groqRequest this text title] in
    if isGroqAvailable this then
      match fst (summarizeWithGroq this text title net sent) with
      | Resolved points => (Resolved points, sentG)
      | Rejected _ =>
          if isGeminiAvailable this
          then summarizeWithGemini this text title net sentG
          else (Rejected apiKeyRequired, sentG)
      end
    else if isGeminiAvailable this
         then summarizeWithGemini this text title net sent
         else (Rejected apiKeyRequired, sent).
Proof.
  rewrite summarize_unfold. cbv zeta.
  pose proof (summarizeWithGroq_sent this text title net sent) as Sg.
  fold (groqRequest this text title) in Sg.
  destruct (isGroqAvailable this); [|reflexivity].
  destruct (summarizeWithGroq this text title net sent) as [[pts|e] s];
    simpl in *; subst s; reflexivity.
Qed.

(** X6. With both keys available, a Groq attempt that fails in any way is
    followed by the Gemini attempt, and [summarize] ends as that attempt
    ends, with its points or with its error: the Groq error is not seen.
    The requests are the one to Groq, then the one to Gemini. *)
Theorem summarize_falls_back_to_gemini this text title net sent e
    (Hg : isGroqAvailable this = true)
    (Hm : isGeminiAvailable this = true)
    (He : fst (summarizeWithGroq this text title net sent) = Rejected e) :
  summarize this text title net sent
  = summarizeWithGemini this text title net (sent ++ [groqRequest this text title])
  /\ snd (summarize this text title net sent)
     = sent ++ [groqRequest this text title; geminiRequest this text title].
Proof.
  assert (E : summarize this text title net sent
              = summarizeWithGemini this text title net
                  (sent ++ [groqRequest this text title])).
  { rewrite summarize_cases. cbv zeta. rewrite Hg, He, Hm. reflexivity. }
  split; [exact E|]. rewrite E, summarizeWithGemini_sent, <- app_assoc.
  reflexivity.
Qed.

(** X7. The requests of one call of [summarize]: one to Groq when its key
    is available, then one to Gemini when its key is available and Groq
    was not asked or did not resolve.  So there are at most two, no
    provider is asked twice, and Gemini is not asked after Groq resolved. *)
Theorem summarize_requests this text title net sent :
  let groqResolved :=
    match fst (summarizeWithGroq this text title net sent) with
    | Resolved _ => isGroqAvailable this
    | Rejected _ => false
    end in
  snd (summarize this text title net sent)
  = sent
    ++ (if isGroqAvailable this then [groqRequest this text title] else [])
    ++ (if isGeminiAvailable this && negb groqResolved
        then [geminiRequest this text title] else []).
Proof.
  cbv zeta. rewrite summarize_cases. cbv zeta.
  destruct (isGroqAvailable this).
  - destruct (fst (summarizeWithGroq this text title net sent)) as [pts|e].
    + rewrite andb_false_r. reflexivity.
    + rewrite andb_true_r. destruct (isGeminiAvailable this); [|reflexivity].
      rewrite summarizeWithGemini_sent, <- app_assoc. reflexivity.
  - assert (E : negb match fst (summarizeWithGroq this text title net sent) with
                     | Resolved _ => false
                     | Rejected _ => false
                     end = true)
      by (destruct (fst (summarizeWithGroq this text title net sent)); reflexivity).
    rewrite E, andb_true_r. simpl.
    destruct (isGeminiAvailable this); [apply summarizeWithGemini_sent|].
    simpl. rewrite app_nil_r. reflexivity.
Qed.

(** The message built for a Gemini response that is not a success starts
    with the letter G. *)
Lemma geminiErrorMessage_head r : exists tail, geminiErrorMessage r = 71%N :: tail.
Proof.
  unfold geminiErrorMessage.
  destruct (bodyText r); destruct (bodyJson r) as [[]|];
    try (eexists; reflexivity);
    match goal with
    | |- context [truthy ?v] =>
        destruct (truthy v); [destruct (templateString v)|]; eexists; reflexivity
    end.
Qed.

Lemma summarizeWithGemini_not_key_error this text title net sent :
  fst (summarizeWithGemini this text title net sent) <> Rejected apiKeyRequired.
Proof.
  rewrite summarizeWithGemini_unfold. cbv zeta.
  destruct (net (length sent) _) as [|r]; [discriminate|].
  destruct (ok r).
  - assert (Hp : forall v sent',
      fst (pointsOfGenerated (str "No text generated from API") v net sent')
      <> Rejected apiKeyRequired).
    { intros v sent' E. apply pointsOfGenerated_rejected in E as [E|E];
        discriminate E. }
    destruct (bodyJson r) as [[]|]; try discriminate; apply Hp.
  - destruct (geminiErrorMessage_head r) as [tail E]. simpl. rewrite E.
    discriminate.
Qed.

(** X8. When the Gemini key is available, [summarize] never rejects with
    the error about the missing key, whatever the network answers. *)
Theorem key_error_needs_gemini_unavailable this text title net sent
    (Hm : isGeminiAvailable this = true) :
  fst (summarize this text title net sent) <> Rejected apiKeyRequired.
Proof.
  rewrite summarize_cases. cbv zeta. rewrite Hm.
  destruct (isGroqAvailable this);
    [|apply summarizeWithGemini_not_key_error].
  destruct (fst (summarizeWithGroq this text title net sent));
    [discriminate | apply summarizeWithGemini_not_key_error].
Qed.

Lemma sanitize_sanitized s : Forall sanitized (sanitize s).
Proof.
  apply Forall_forall. intros x Hx.
  apply In_sanitize_parsePoints, In_parsePoints in Hx as [Hs Hlen].
  split; [exact (strippedLines_trimmed _ _ Hs) | exact Hlen].
Qed.

Lemma summarize_resolved this text title net sent pts :
  fst (summarize this text title net sent) = Resolved pts ->
  exists s, s <> [] /\ pts = sanitize s.
Proof.
  rewrite summarize_cases. cbv zeta.
  assert (Hm : forall sent',
    fst (if isGeminiAvailable this
         then summarizeWithGemini this text title net sent'
         else (Rejected apiKeyRequired, sent')) = Resolved pts ->
    exists s, s <> [] /\ pts = sanitize s).
  { intros sent'. destruct (isGeminiAvailable this); [|discriminate].
    intros E. apply summarizeWithGemini_resolved in E
      as [r [data [s [_ [_ [_ [_ [Hs Hp]]]]]]]].
    exists s. tauto. }
  destruct (isGroqAvailable this); [|apply Hm].
  destruct (fst (summarizeWithGroq this text title net sent)) as [p|e] eqn:E;
    [|apply Hm].
  simpl. intros [= <-].
  apply summarizeWithGroq_resolved in E as [r [data [s [_ [_ [_ [_ [Hs Hp]]]]]]]].
  exists s. tauto.
Qed.

(** X9. Whatever [summarize] resolves with is the sanitised form of a
    non-empty text some provider generated: each point is left alone by
    [trim] and has more than 20 code units. *)
Theorem summarize_points_are_sanitized this text title net sent pts
    (Hr : fst (summarize this text title net sent) = Resolved pts) :
  (exists generated, generated <> [] /\ pts = sanitize generated)
  /\ Forall sanitized pts.
Proof.
  destruct (summarize_resolved _ _ _ _ _ Hr) as [s [Hs ->]].
  split; [exists s; tauto | apply sanitize_sanitized].
Qed.

(** X10. The message of the error for a Gemini response that is not a
    success starts with [Gemini API error: ] and the status; when the body
    of the response is not JSON, what follows is nothing for an empty body
    and otherwise [ - ] and the first 200 code units of the body. *)
Theorem geminiErrorMessage_shape r :
  exists detail,
    geminiErrorMessage r
    = str "Gemini API error: " ++ statusToString (status r) ++ detail
    /\ (bodyJson r = None ->
        detail = match bodyText r with
                 | [] => []
                 | _ :: _ => str " - " ++ firstn 200 (bodyText r)
                 end
        /\ length detail <= 203).
Proof.
  unfold geminiErrorMessage, substring0.
  destruct (bodyJson r) as [data|].
  - assert (D : forall tail : jsstring,
      exists detail,
        (str "Gemini API error: " ++ statusToString (status r)) ++ tail
        = str "Gemini API error: " ++ statusToString (status r) ++ detail
        /\ (Some data = None -> False)).
    { intros tail. exists tail. rewrite <- app_assoc. split;
        [reflexivity | discriminate]. }
    assert (D0 : exists detail,
        str "Gemini API error: " ++ statusToString (status r)
        = str "Gemini API error: " ++ statusToString (status r) ++ detail
        /\ (Some data = None -> False)).
    { exists []. rewrite app_nil_r. split; [reflexivity | discriminate]. }
    assert (Fin : forall m : jsstring,
      (exists detail,
         m = str "Gemini API error: " ++ statusToString (status r) ++ detail
         /\ (Some data = None -> False)) ->
      exists detail,
        m = str "Gemini API error: " ++ statusToString (status r) ++ detail
        /\ (Some data = None ->
            detail = match bodyText r with
                     | [] => []
                     | _ :: _ => str " - " ++ firstn 200 (bodyText r)
                     end
            /\ length detail <= 203)).
    { intros m [detail [E F]]. exists detail. split; [exact E|].
      intros G. destruct (F G). }
    apply Fin.
    destruct (bodyText r); destruct data;
      try exact D0; try apply D;
      match goal with
      | |- context [truthy ?v] =>
          destruct (truthy v);
            [destruct (templateString v); first [exact D0 | apply D] | exact D0]
      end.
  - destruct (bodyText r) as [|c t].
    + exists []. rewrite app_nil_r. split; [reflexivity|]. intros _.
      split; [reflexivity | simpl; lia].
    + exists (str " - " ++ firstn 200 (c :: t)). rewrite <- app_assoc.
      split; [reflexivity|]. intros _. split; [reflexivity|].
      rewrite length_app. pose proof (firstn_le_length 200 (c :: t)).
      assert (L : length (firstn 200 (c :: t)) <= 200) by apply firstn_le_length.
      change (length (str " - ")) with 3. lia.
Qed.

End OrchestratorFacts.

Lemma summarize_falls_back_to_gemini_witness :
  AISummarizer.isGroqAvailable both_keys = true
  /\ AISummarizer.isGeminiAvailable both_keys = true
  /\ AISummarizer.summarize both_keys (str "article") None
       (fallback_network two_finished_raw) []
     = (Resolved (sanitize two_finished_raw),
        [groqRequest both_keys (str "article") None;
         geminiRequest both_keys (str "article") None]).
Proof.
  assert (Hg : AISummarizer.isGroqAvailable both_keys = true) by reflexivity.
  assert (Hm : AISummarizer.isGeminiAvailable both_keys = true) by reflexivity.
  assert (He : fst (AISummarizer.summarizeWithGroq both_keys (str "article") None
                      (fallback_network two_finished_raw) [])
               = Rejected (Error (str "Groq API error: 500 - boom")))
    by (vm_compute; reflexivity).
  split; [exact Hg|]. split; [exact Hm|].
  rewrite (proj1 (summarize_falls_back_to_gemini both_keys (str "article") None
                    (fallback_network two_finished_raw) [] Hg Hm He)).
  vm_compute. reflexivity.
Defined.

Lemma key_error_needs_gemini_unavailable_witness :
  AISummarizer.isGeminiAvailable both_keys = true
  /\ fst (AISummarizer.summarize both_keys (str "article") None network_500 [])
     <> Rejected AISummarizer.apiKeyRequired.
Proof.
  assert (Hm : AISummarizer.isGeminiAvailable both_keys = true) by reflexivity.
  split; [exact Hm|].
  exact (key_error_needs_gemini_unavailable both_keys (str "article") None
           network_500 [] Hm).
Defined.

Lemma summarize_points_are_sanitized_witness :
  fst (AISummarizer.summarize both_keys (str "article") None
         (fallback_network two_finished_raw) [])
  = Resolved (sanitize two_finished_raw)
  /\ Forall sanitized (sanitize two_finished_raw).
Proof.
  assert (Hr : fst (AISummarizer.summarize both_keys (str "article") None
                      (fallback_network two_finished_raw) [])
               = Resolved (sanitize two_finished_raw))
    by (vm_compute; reflexivity).
  split; [exact Hr|].
  exact (proj2 (summarize_points_are_sanitized both_keys (str "article") None
                  (fallback_network two_finished_raw) [] Hr)).
Defined.

(** ** The requests of a translation *)

Section TranslationFacts.
Context `{Number}.

Import AISummarizer.

Lemma promiseAll_translate_sent tl net points : forall sent,
  snd (promiseAll (map (fun p => translatePoint tl p) points) net sent)
  = sent ++ map (TranslateRequest tl) (filter wellFormed points).
Proof.
  induction points as [|p ps IH]; intros sent.
  - simpl. rewrite app_nil_r. reflexivity.
  - simpl map. simpl promiseAll. rewrite translatePoint_settles.
    specialize (IH (if wellFormed p then sent ++ [TranslateRequest tl p] else sent)).
    destruct (promiseAll _ net _) as [[out|e] sent'] eqn:E; simpl in IH |- *;
      rewrite IH; destruct (wellFormed p); simpl;
      try rewrite <- app_assoc; reflexivity.
Qed.

(** X11. [translate] sends one request for each item that can be encoded,
    in the order of the items, each with the item's own text and the code
    of the target language; an item with a lone surrogate sends none, and
    an empty batch sends nothing. *)
Theorem translate_requests points targetLanguage net sent :
  snd (translate points targetLanguage net sent)
  = sent ++ map (TranslateRequest (langCode targetLanguage))
              (filter wellFormed points).
Proof.
  unfold translate, tryCatch. cbv zeta.
  pose proof (promiseAll_translate_sent (langCode targetLanguage) net points sent) as S.
  destruct (promiseAll _ net sent) as [[out|e] sent']; exact S.
Qed.

Lemma translate_no_answers points targetLanguage net sent :
  (forall k req, translationIn (net k req) = None) ->
  fst (translate points targetLanguage net sent) = Resolved points.
Proof.
  intros Hnone.
  destruct (promiseAll_translate (langCode targetLanguage) net points sent)
    as [out [sent' [E [L N]]]].
  unfold translate, tryCatch. cbv zeta. rewrite E. simpl. f_equal.
  apply nth_error_ext. intros i.
  destruct (nth_error points i) as [text|] eqn:Hi.
  - rewrite (N i text Hi). f_equal. unfold itemResult.
    rewrite Hnone. destruct (wellFormed text); reflexivity.
  - apply nth_error_None. apply nth_error_None in Hi. lia.
Qed.

(** X12. When no answer carries a translation (the network is down, or
    every response is an error), [translate] resolves with its input
    unchanged. *)
Theorem translate_without_answers_is_identity points targetLanguage net sent
    (Hnone : forall k req, translationIn (net k req) = None) :
  fst (translate points targetLanguage net sent) = Resolved points.
Proof. apply translate_no_answers, Hnone. Qed.

End TranslationFacts.

Lemma translate_without_answers_is_identity_witness :
  (forall k req, translationIn (offline_network k req) = None)
  /\ fst (AISummarizer.translate spec_batch (str "Hindi") offline_network [])
     = Resolved spec_batch.
Proof.
  assert (Hnone : forall k req, translationIn (offline_network k req) = None)
    by reflexivity.
  split; [exact Hnone|].
  exact (translate_without_answers_is_identity spec_batch (str "Hindi")
           offline_network [] Hnone).
Defined.

(** ** The content script between two handlers *)

Section SessionFacts.
Context `{Number} `{Content.Browser}.

Import Content.

Lemma translate_resolves points targetLanguage net sent :
  exists out sent',
    AISummarizer.translate points targetLanguage net sent = (Resolved out, sent')
    /\ length out = length points.
Proof.
  destruct (promiseAll_translate (AISummarizer.langCode targetLanguage) net points sent)
    as [out [sent' [E [L _]]]].
  exists out, sent'. split; [|exact L].
  unfold AISummarizer.translate, tryCatch. cbv zeta. rewrite E. reflexivity.
Qed.

(** A state with the same cache whose panel shows no other list than the
    current points. *)
Lemma consistent_with_panel st st' p' :
  consistent st ->
  cacheOf st' = cacheOf st ->
  summaryPanel st' = Some p' ->
  (forall items, contentDiv p' = SummaryList items ->
     currentSummaryPoints st' = items /\ items <> []) ->
  consistent st'.
Proof.
  intros [H1 [H2 [H3 H4]]] C Hp Hl.
  unfold cacheOf in C. injection C as C1 C2 C3.
  split; [|split; [|split]].
  - intros _. rewrite Hp. discriminate.
  - intros p items Ep. rewrite Hp in Ep. injection Ep as <-. apply Hl.
  - rewrite C1, C2. exact H3.
  - rewrite C2. exact H4.
Qed.

Lemma consistent_same st st' :
  consistent st ->
  cacheOf st' = cacheOf st ->
  summaryPanel st' = summaryPanel st ->
  currentSummaryPoints st' = currentSummaryPoints st ->
  (panelOpen st' = true -> panelOpen st = true) ->
  consistent st'.
Proof.
  intros [H1 [H2 [H3 H4]]] C Hp Hc Ho.
  unfold cacheOf in C. injection C as C1 C2 C3.
  split; [|split; [|split]].
  - intros E. rewrite Hp. apply H1, Ho, E.
  - intros p items Ep. rewrite Hp in Ep. rewrite Hc. apply H2, Ep.
  - rewrite C1, C2. exact H3.
  - rewrite C2. exact H4.
Qed.

Lemma consistent_initial : consistent initial.
Proof.
  split; [|split; [|split]]; simpl; try discriminate.
  split; reflexivity.
Qed.

Lemma consistent_initializeSummarizer stored st :
  consistent st -> consistent (initializeSummarizer stored st).
Proof.
  intros Hst. apply (consistent_same Hst);
    unfold initializeSummarizer;
    destruct stored as [[g k]|];
    try destruct (truthyString (orNull g) || truthyString (orNull k));
    try reflexivity; tauto.
Qed.

Lemma consistent_closePanel st : consistent st -> consistent (closePanel st).
Proof.
  intros Hst. unfold closePanel. destruct (summaryPanel st) eqn:E; [|exact Hst].
  apply (consistent_same Hst); try reflexivity. simpl. discriminate.
Qed.

Lemma consistent_translateTimer l st :
  consistent st -> consistent (translateTimer l st).
Proof.
  intros Hst. unfold translateTimer. destruct (summaryPanel st) as [p|] eqn:E;
    [|exact Hst].
  eapply (consistent_with_panel Hst); [reflexivity | reflexivity|].
  simpl. intros items Hi. exact (proj1 (proj2 Hst) p items E Hi).
Qed.


Lemma consistent_displaySummary pg st :
  consistent st -> consistent (displaySummary pg st).
Proof.
  intros Hst. unfold displaySummary.
  destruct (summaryPanel st) as [p|] eqn:Hp; [|exact Hst].
  destruct (cacheGet (href pg) st) as [[t cached]|] eqn:Hget.
  - apply cacheGet_Some in Hget as [_ [Hc _]].
    destruct Hst as [H1 [H2 [H3 H4]]]. destruct (H4 _ Hc) as [Hne _].
    eapply (consistent_with_panel (conj H1 (conj H2 (conj H3 H4))));
      [reflexivity | reflexivity|].
    simpl. intros items [= <-]. split; [reflexivity | exact Hne].
  - set (st1 := match summarizer st with
                | None => initializeSummarizer (storage pg) st
                | Some _ => st
                end).
    assert (H1 : consistent st1).
    { unfold st1. destruct (summarizer st);
        [exact Hst | apply consistent_initializeSummarizer, Hst]. }
    assert (Hp1 : summaryPanel st1 = Some p).
    { unfold st1. destruct (summarizer st); [exact Hp|].
      unfold initializeSummarizer. destruct (storage pg) as [[g k]|];
        try destruct (truthyString (orNull g) || truthyString (orNull k));
        exact Hp. }
    clearbody st1.
    assert (Herr : forall message,
      consistent (setPanel (Some (showError message (setContent Loading p))) st1)).
    { intros message. eapply (consistent_with_panel H1);
        [reflexivity | reflexivity | simpl; discriminate]. }
    destruct (summarizer st1) as [this|] eqn:Hs; [|apply Herr].
    destruct (extracted pg) as [a|].
    + destruct (run _ (net pg)) as [[[|x l]|e] sent] eqn:Hr;
        try apply Herr.
      assert (Hsan : Forall sanitized (x :: l)).
      { assert (Hf : fst (AISummarizer.summarize this (text a) (title a)
                            (net pg) []) = Resolved (x :: l))
          by (unfold run in Hr; rewrite Hr; reflexivity).
        destruct (summarize_resolved _ _ _ _ _ Hf) as [s [_ ->]].
        apply sanitize_sanitized. }
      destruct H1 as [A1 [A2 [A3 A4]]].
      split; [|split; [|split]]; simpl.
      * discriminate.
      * intros p' items [= <-]. simpl. intros [= <-].
        split; [reflexivity | discriminate].
      * split; discriminate.
      * intros pts [= <-]. split; [discriminate | exact Hsan].
    + eapply (consistent_with_panel H1);
        [reflexivity | reflexivity | simpl; discriminate].
Qed.

Lemma consistent_openPanel pg st : consistent st -> consistent (openPanel pg st).
Proof.
  intros Hst. unfold openPanel. apply consistent_displaySummary.
  destruct (summaryPanel st) as [p|] eqn:Hp.
  - eapply (consistent_with_panel Hst); [reflexivity | reflexivity|].
    simpl. intros items Hi. exact (proj1 (proj2 Hst) p items Hp Hi).
  - eapply (consistent_with_panel Hst);
      [reflexivity | reflexivity | simpl; discriminate].
Qed.

(** The modes of [handleTranslate]: the list mode translates the current
    points, which are not empty; a text mode never puts a list back. *)
Lemma toTranslate_modes st p texts m :
  toTranslate st p = (texts, m) ->
  match m with
  | ListMode => texts = currentSummaryPoints st /\ texts <> []
  | TextMode target => forall t items, target t <> SummaryList items
  | NoTarget => True
  end.
Proof.
  unfold toTranslate.
  destruct (contentDiv p) as [| |items|t|t|t];
    try (destruct (trim _); intros [= <- <-]; [exact I | discriminate]);
    try (intros [= <- <-]; discriminate).
  destruct (currentSummaryPoints st) as [|x l] eqn:Ec.
  - destruct (trim _); intros [= <- <-]; [exact I | discriminate].
  - intros [= <- <-]. split; [reflexivity | discriminate].
Qed.

Lemma consistent_handleTranslate network st :
  consistent st -> consistent (handleTranslate network st).
Proof.
  intros Hst. unfold handleTranslate.
  destruct (summarizer st) as [this|]; [|exact Hst].
  destruct (summaryPanel st) as [p|] eqn:Hp; [|exact Hst].
  pose proof (fun items => proj1 (proj2 Hst) p items Hp) as Hlist.
  destruct (toTranslate st p) as [texts m] eqn:Em.
  apply toTranslate_modes in Em.
  destruct (translate_resolves ([titleEl p; subtitleEl p] ++ texts)
              (str "Hindi") network []) as [out [sent' [E L]]].
  unfold run. rewrite E.
  destruct out as [|t [|u tr]]; try discriminate L.
  simpl in L. cbn [applyHeader].
  destruct m as [|target|].
  - destruct Em as [-> Hne].
    eapply (consistent_with_panel Hst); [reflexivity | reflexivity|].
    simpl. intros items [= <-]. split; [reflexivity|].
    intros ->. destruct (currentSummaryPoints st); [congruence | discriminate L].
  - destruct tr as [|first rest].
    + eapply (consistent_with_panel Hst); [reflexivity | reflexivity|].
      simpl. exact Hlist.
    + eapply (consistent_with_panel Hst); [reflexivity | reflexivity|].
      simpl. intros items Hi. destruct (Em first items Hi).
  - eapply (consistent_with_panel Hst); [reflexivity | reflexivity|].
    simpl. exact Hlist.
Qed.

Lemma consistent_step st ev : consistent st -> consistent (step st ev).
Proof.
  intros Hst. destruct ev as [stored|pg| |network|l]; simpl.
  - apply consistent_initializeSummarizer, Hst.
  - unfold handleButtonClick. destruct (panelOpen st);
      [apply consistent_closePanel | apply consistent_openPanel]; exact Hst.
  - apply consistent_closePanel, Hst.
  - apply consistent_handleTranslate, Hst.
  - apply consistent_translateTimer, Hst.
Qed.

Lemma consistent_after evs : consistent (after evs).
Proof.
  unfold after.
  assert (G : forall st, consistent st -> consistent (fold_left step evs st)).
  { induction evs as [|ev evs IH]; intros st Hst; simpl; [exact Hst|].
    apply IH, consistent_step, Hst. }
  apply G, consistent_initial.
Qed.

(** X13. After any sequence of events, a summary list shown in the panel
    is exactly the array of current points, the one the translate button
    sends, and it is not empty; and a panel that is open exists. *)
Theorem shown_list_is_current_points evs :
  let st := after evs in
  (forall p items,
     summaryPanel st = Some p -> contentDiv p = SummaryList items ->
     currentSummaryPoints st = items /\ items <> [])
  /\ (panelOpen st = true -> summaryPanel st <> None).
Proof.
  destruct (consistent_after evs) as [H1 [H2 _]]. split; assumption.
Qed.

(** X14. After any sequence of events, translations included, the cache
    holds either nothing or a URL together with points as the sanitisation
    left them: each stored point is left alone by [trim] and has more than
    20 code units. *)
Theorem cached_points_stay_sanitized evs :
  let st := after evs in
  (cachedUrl st = None <-> cachedSummary st = None)
  /\ (forall pts, cachedSummary st = Some pts -> Forall sanitized pts).
Proof.
  destruct (consistent_after evs) as [_ [_ [H3 H4]]]. split; [exact H3|].
  intros pts Hp. exact (proj2 (H4 pts Hp)).
Qed.


(** X16. A stored key made of white space only passes the test of
    [initializeSummarizer], which only asks for a non-empty string, and
    fails the one of the summariser, which trims: a summariser is created,
    and every call of [summarize] on it rejects with the error about the
    missing key without sending a request. *)
Theorem blank_stored_key_gives_unusable_summarizer g k st
    (Bg : blank g) (Bk : blank k)
    (Ht : truthyString g || truthyString k = true) :
  exists this,
    summarizer (initializeSummarizer (Some (g, k)) st) = Some this
    /\ forall text title net sent,
         AISummarizer.summarize this text title net sent
         = (Rejected AISummarizer.apiKeyRequired, sent).
Proof.
  assert (O : forall x, blank x -> orNull x = x \/ orNull x = None).
  { intros x _. unfold orNull. destruct (truthyString x); tauto. }
  assert (T : forall x, truthyString (orNull x) = truthyString x).
  { intros x. unfold orNull. destruct (truthyString x) eqn:E; [exact E|reflexivity]. }
  assert (B : forall x, blank x -> blank (orNull x)).
  { intros x Bx. destruct (O x Bx) as [-> | ->]; [exact Bx | exact I]. }
  exists (AISummarizer.new (orNull g) (orNull k)). split.
  - unfold initializeSummarizer. rewrite !T, Ht. reflexivity.
  - intros text title net sent. rewrite summarize_cases. cbv zeta.
    unfold AISummarizer.isGroqAvailable, AISummarizer.isGeminiAvailable. simpl.
    rewrite (proj2 (keyAvailable_false_iff (orNull g)) (B g Bg)).
    rewrite (proj2 (keyAvailable_false_iff (orNull k)) (B k Bk)).
    reflexivity.
Qed.

End SessionFacts.


Lemma blank_stored_key_gives_unusable_summarizer_witness :
  blank (Some (str " ")) /\ blank None
  /\ exists this,
       Content.summarizer
         (Content.initializeSummarizer (Some (Some (str " "), None)) Content.initial)
       = Some this
       /\ AISummarizer.summarize this (str "article") None network_500 []
          = (Rejected AISummarizer.apiKeyRequired, []).
Proof.
  assert (Bg : blank (Some (str " "))) by (repeat constructor).
  assert (Bk : blank None) by exact I.
  split; [exact Bg|]. split; [exact Bk|].
  destruct (blank_stored_key_gives_unusable_summarizer
              (Some (str " ")) None Content.initial Bg Bk eq_refl)
    as [this [E F]].
  exists this. split; [exact E | apply F].
Defined.

(** ** The options page *)

Section OptionsFacts.

Import Options.

Lemma nonEmpty_true_iff s : nonEmpty s = true <-> s <> [].
Proof. destruct s; simpl; split; congruence. Qed.

Lemma trimmed_key_available k :
  nonEmpty (trim k) = true -> AISummarizer.keyAvailable (Some (trim k)) = true.
Proof.
  intros Hk. simpl. rewrite trim_idem. apply negb_true_iff, streq_false_iff.
  apply nonEmpty_true_iff, Hk.
Qed.

(** [saveSettings] by the four tests it makes. *)
Lemma saveSettings_notified setSucceeds pg st :
  let g := trim (groqApiKeyInput (inputs pg)) in
  let m := trim (geminiApiKeyInput (inputs pg)) in
  notified (saveSettings setSucceeds pg st) = true ->
  setSucceeds = true
  /\ (nonEmpty g = true \/ nonEmpty m = true)
  /\ (nonEmpty m = true -> startsWith (str "AIza") m = true)
  /\ (nonEmpty g = true -> startsWith (str "gsk_") g = true)
  /\ storageAfter (saveSettings setSucceeds pg st)
     = {| groqApiKey := if nonEmpty g then Some g else groqApiKey st;
          geminiApiKey := if nonEmpty m then Some m else geminiApiKey st |}.
Proof.
  cbv zeta. unfold saveSettings.
  destruct (nonEmpty (trim (groqApiKeyInput (inputs pg)))) eqn:Eg;
    destruct (nonEmpty (trim (geminiApiKeyInput (inputs pg)))) eqn:Em;
    cbn [negb andb];
    try destruct (startsWith (str "AIza") _) eqn:Pm;
    try destruct (startsWith (str "gsk_") _) eqn:Pg;
    cbn [negb andb]; destruct setSucceeds; simpl;
    try discriminate; intros _; repeat split; auto; discriminate.
Qed.

(** X17. When [saveSettings] saves (it notifies the tabs), the storage was
    written, each filled field was trimmed and starts with the prefix of
    its provider ([gsk_], [AIza]), the stored key of a filled field is the
    trimmed input, and the stored key of a field left empty is the key that
    was stored before: an empty field erases nothing. *)
Theorem saveSettings_stores_trimmed_prefixed_keys setSucceeds pg st
    (Hn : notified (saveSettings setSucceeds pg st) = true) :
  let g := trim (groqApiKeyInput (inputs pg)) in
  let m := trim (geminiApiKeyInput (inputs pg)) in
  let st' := storageAfter (saveSettings setSucceeds pg st) in
  (g <> [] \/ m <> [])
  /\ (g <> [] -> startsWith (str "gsk_") g = true /\ groqApiKey st' = Some g)
  /\ (m <> [] -> startsWith (str "AIza") m = true /\ geminiApiKey st' = Some m)
  /\ (g = [] -> groqApiKey st' = groqApiKey st)
  /\ (m = [] -> geminiApiKey st' = geminiApiKey st).
Proof.
  cbv zeta.
  destruct (saveSettings_notified setSucceeds pg st Hn) as [_ [H1 [H2 [H3 ->]]]].
  simpl. rewrite !nonEmpty_true_iff in *.
  split; [exact H1|].
  split; [intros Hg; split; [apply H3, Hg|]|].
  { destruct (trim (groqApiKeyInput (inputs pg))); [congruence | reflexivity]. }
  split; [intros Hm; split; [apply H2, Hm|]|].
  { destruct (trim (geminiApiKeyInput (inputs pg))); [congruence | reflexivity]. }
  split; intros ->; reflexivity.
Qed.

(** X18. [saveSettings] writes the storage only when it notifies the tabs:
    with both fields blank, a filled field without its prefix, or a write
    that fails, the storage is as it was and no tab is notified. *)
Theorem saveSettings_refusal_changes_nothing setSucceeds pg st :
  let g := trim (groqApiKeyInput (inputs pg)) in
  let m := trim (geminiApiKeyInput (inputs pg)) in
  (notified (saveSettings setSucceeds pg st) = false ->
   storageAfter (saveSettings setSucceeds pg st) = st)
  /\ (notified (saveSettings setSucceeds pg st) = true
      <-> setSucceeds = true
          /\ (g <> [] \/ m <> [])
          /\ (m <> [] -> startsWith (str "AIza") m = true)
          /\ (g <> [] -> startsWith (str "gsk_") g = true)).
Proof.
  cbv zeta. split; [|split].
  - unfold saveSettings.
    destruct (negb _ && negb _); [reflexivity|].
    destruct (nonEmpty _ && negb _); [reflexivity|].
    destruct (nonEmpty _ && negb _); [reflexivity|].
    destruct setSucceeds; [discriminate | reflexivity].
  - intros Hn.
    destruct (saveSettings_notified setSucceeds pg st Hn) as [H0 [H1 [H2 [H3 _]]]].
    rewrite !nonEmpty_true_iff in *. tauto.
  - rewrite <- !nonEmpty_true_iff. intros [-> [H1 [H2 H3]]].
    unfold saveSettings.
    destruct (nonEmpty (trim (groqApiKeyInput (inputs pg)))) eqn:Eg;
      destruct (nonEmpty (trim (geminiApiKeyInput (inputs pg)))) eqn:Em;
      cbn [negb andb];
      try rewrite (H2 eq_refl); try rewrite (H3 eq_refl);
      try reflexivity.
    destruct H1; discriminate.
Qed.

End OptionsFacts.

Section OptionsAndContent.
Context `{Number}.

Import Options.

(** X19. After [saveSettings] has saved, a content script that loads the
    keys from the storage gets a summariser with an available provider,
    and a call of [summarize] on it sends at least one request. *)
Theorem saved_keys_give_a_usable_summarizer setSucceeds pg st cst
    (Hn : notified (saveSettings setSucceeds pg st) = true) :
  exists this,
    Content.summarizer
      (Content.initializeSummarizer
         (stored (storageAfter (saveSettings setSucceeds pg st))) cst)
    = Some this
    /\ AISummarizer.isGroqAvailable this || AISummarizer.isGeminiAvailable this = true
    /\ forall text title net sent,
         exists req rest,
           snd (AISummarizer.summarize this text title net sent)
           = sent ++ req :: rest.
Proof.
  destruct (saveSettings_notified setSucceeds pg st Hn) as [_ [H1 [_ [_ E]]]].
  rewrite E. unfold stored. cbn [groqApiKey geminiApiKey].
  set (g := trim (groqApiKeyInput (inputs pg))) in *.
  set (m := trim (geminiApiKeyInput (inputs pg))) in *.
  set (kg := if nonEmpty g then Some g else groqApiKey st).
  set (km := if nonEmpty m then Some m else geminiApiKey st).
  assert (A : (Content.truthyString kg = true /\ AISummarizer.keyAvailable kg = true)
              \/ (Content.truthyString km = true /\ AISummarizer.keyAvailable km = true)).
  { destruct H1 as [Hg|Hm]; [left | right].
    - unfold kg. rewrite Hg. split; [|apply trimmed_key_available, Hg].
      destruct g; [discriminate | reflexivity].
    - unfold km. rewrite Hm. split; [|apply trimmed_key_available, Hm].
      destruct m; [discriminate | reflexivity]. }
  assert (O : forall x, Content.truthyString x = true -> Content.orNull x = x).
  { intros x Hx. unfold Content.orNull. rewrite Hx. reflexivity. }
  assert (T : forall x, Content.truthyString (Content.orNull x) = Content.truthyString x).
  { intros x. unfold Content.orNull.
    destruct (Content.truthyString x) eqn:Ex; [exact Ex | reflexivity]. }
  exists (AISummarizer.new (Content.orNull kg) (Content.orNull km)).
  assert (Av : AISummarizer.keyAvailable (Content.orNull kg)
               || AISummarizer.keyAvailable (Content.orNull km) = true).
  { destruct A as [[Ht Ha]|[Ht Ha]]; rewrite (O _ Ht), Ha;
      [reflexivity | apply orb_true_r]. }
  split; [|split].
  - unfold Content.initializeSummarizer. rewrite !T.
    destruct A as [[Ht _]|[Ht _]]; rewrite Ht; [|rewrite orb_true_r]; reflexivity.
  - exact Av.
  - intros text title net sent. rewrite summarize_cases. cbv zeta.
    unfold AISummarizer.isGroqAvailable, AISummarizer.isGeminiAvailable.
    cbn [AISummarizer.new AISummarizer.groqApiKey AISummarizer.geminiApiKey].
    destruct (AISummarizer.keyAvailable (Content.orNull kg)).
    + destruct (fst (AISummarizer.summarizeWithGroq _ text title net sent)).
      * eexists. eexists. reflexivity.
      * destruct (AISummarizer.keyAvailable (Content.orNull km)).
        -- rewrite summarizeWithGemini_sent, <- app_assoc.
           eexists. eexists. reflexivity.
        -- eexists. eexists. reflexivity.
    + simpl in Av. rewrite Av. rewrite summarizeWithGemini_sent.
      eexists. eexists. reflexivity.
Qed.

End OptionsAndContent.

Section OptionsRoundTrip.

Import Options.

(** X20. What was saved is what is loaded: after [saveSettings] has saved,
    [loadSettings] from the storage puts the trimmed input back into each
    field that was filled, and reports that settings were loaded. *)
Theorem saved_keys_are_loaded_back setSucceeds pg st blankPage
    (Hn : notified (saveSettings setSucceeds pg st) = true) :
  let g := trim (groqApiKeyInput (inputs pg)) in
  let m := trim (geminiApiKeyInput (inputs pg)) in
  let loaded :=
    loadSettings (Some (storageAfter (saveSettings setSucceeds pg st))) blankPage in
  (g <> [] -> groqApiKeyInput (inputs loaded) = g)
  /\ (m <> [] -> geminiApiKeyInput (inputs loaded) = m)
  /\ statusDiv loaded = SettingsLoaded.
Proof.
  cbv zeta.
  destruct (saveSettings_notified setSucceeds pg st Hn) as [_ [H1 [_ [_ ->]]]].
  set (g := trim (groqApiKeyInput (inputs pg))) in *.
  set (m := trim (geminiApiKeyInput (inputs pg))) in *.
  unfold loadSettings. cbn [groqApiKey geminiApiKey].
  assert (Hs : Content.truthyString (if nonEmpty g then Some g else groqApiKey st)
               || Content.truthyString (if nonEmpty m then Some m else geminiApiKey st)
               = true).
  { destruct H1 as [Hg|Hm].
    - rewrite Hg. destruct g; [discriminate | reflexivity].
    - rewrite Hm. destruct m; [discriminate | apply orb_true_r]. }
  rewrite Hs. cbn.
  split; [|split; [|reflexivity]].
  - intros Hg. destruct g; [congruence | reflexivity].
  - intros Hm. destruct m; [congruence | reflexivity].
Qed.

End OptionsRoundTrip.

Lemma saveSettings_stores_trimmed_prefixed_keys_witness :
  Options.notified (Options.saveSettings true groq_typed empty_storage) = true
  /\ Options.groqApiKey
       (Options.storageAfter (Options.saveSettings true groq_typed empty_storage))
     = Some (str "gsk_abc").
Proof.
  assert (Hn : Options.notified (Options.saveSettings true groq_typed empty_storage)
               = true) by (vm_compute; reflexivity).
  split; [exact Hn|].
  destruct (saveSettings_stores_trimmed_prefixed_keys true groq_typed empty_storage Hn)
    as [_ [Hg _]].
  assert (Ne : trim (Options.groqApiKeyInput (Options.inputs groq_typed)) <> [])
    by (vm_compute; discriminate).
  rewrite (proj2 (Hg Ne)). vm_compute. reflexivity.
Defined.

Lemma saved_keys_give_a_usable_summarizer_witness :
  Options.notified (Options.saveSettings true groq_typed empty_storage) = true
  /\ exists this,
       Content.summarizer
         (Content.initializeSummarizer
            (Options.stored
               (Options.storageAfter
                  (Options.saveSettings true groq_typed empty_storage)))
            Content.initial)
       = Some this
       /\ AISummarizer.isGroqAvailable this || AISummarizer.isGeminiAvailable this
          = true.
Proof.
  assert (Hn : Options.notified (Options.saveSettings true groq_typed empty_storage)
               = true) by (vm_compute; reflexivity).
  split; [exact Hn|].
  destruct (saved_keys_give_a_usable_summarizer true groq_typed empty_storage
              Content.initial Hn) as [this [E [A _]]].
  exists this. split; assumption.
Defined.

Lemma saved_keys_are_loaded_back_witness :
  Options.notified (Options.saveSettings true groq_typed empty_storage) = true
  /\ Options.groqApiKeyInput
       (Options.inputs
          (Options.loadSettings
             (Some (Options.storageAfter
                      (Options.saveSettings true groq_typed empty_storage)))
             {| Options.inputs := {| Options.groqApiKeyInput := [];
                                     Options.geminiApiKeyInput := [] |};
                Options.statusDiv := Options.NoStatus |}))
     = str "gsk_abc".
Proof.
  assert (Hn : Options.notified (Options.saveSettings true groq_typed empty_storage)
               = true) by (vm_compute; reflexivity).
  split; [exact Hn|].
  destruct (saved_keys_are_loaded_back true groq_typed empty_storage
              {| Options.inputs := {| Options.groqApiKeyInput := [];
                                      Options.geminiApiKeyInput := [] |};
                 Options.statusDiv := Options.NoStatus |} Hn)
    as [Hg _].
  assert (Ne : trim (Options.groqApiKeyInput (Options.inputs groq_typed)) <> [])
    by (vm_compute; discriminate).
  rewrite (Hg Ne). vm_compute. reflexivity.
Defined.

(** ** The article extractor *)

Section ExtractorFacts.

Import Extractor.

Lemma collapseWhiteSpace_spec s : forall inRun,
  let r := collapseWhiteSpace inRun s in
  (forall c, In c r -> isWhiteSpace c = true -> c = 32%N)
  /\ (inRun = true -> match r with
                      | c :: _ => isWhiteSpace c = false
                      | [] => True
                      end)
  /\ (forall a b x y, r = a ++ x :: y :: b ->
        isWhiteSpace x = true -> isWhiteSpace y = true -> False).
Proof.
  induction s as [|c s IH]; intros inRun; cbv zeta.
  - simpl. split; [intros c []|]. split; [tauto|].
    intros [|a0 a] b x y E; discriminate E.
  - simpl. destruct (isWhiteSpace c) eqn:Wc.
    + destruct (IH true) as [I1 [I2 I3]]. destruct inRun.
      * split; [exact I1|]. split; [exact I2 | exact I3].
      * split; [|split; [discriminate|]].
        -- intros d [<-|Hd]; [reflexivity | apply I1, Hd].
        -- intros [|a0 a] b x y E Wx Wy.
           ++ injection E as <- E. specialize (I2 eq_refl).
              rewrite E in I2. congruence.
           ++ injection E as _ E. exact (I3 a b x y E Wx Wy).
    + destruct (IH false) as [I1 [_ I3]].
      split; [|split; [intros _; exact Wc|]].
      * intros d [<-|Hd]; [congruence | apply I1, Hd].
      * intros [|a0 a] b x y E Wx Wy.
        -- injection E as <- _. congruence.
        -- injection E as _ E. exact (I3 a b x y E Wx Wy).
Qed.

Lemma singleSpaced_infix x s : infix x s -> singleSpaced s -> singleSpaced x.
Proof.
  intros [a0 [b0 ->]] [S1 S2]. split.
  - intros c Hc. apply S1. apply in_or_app. right. apply in_or_app. left. exact Hc.
  - intros a b u v ->. apply (S2 (a0 ++ a) (b ++ b0) u v).
    repeat rewrite <- app_assoc. reflexivity.
Qed.

Lemma getTextContent_singleSpaced e : singleSpaced (getTextContent e).
Proof.
  unfold getTextContent. eapply singleSpaced_infix; [apply trim_infix|].
  destruct (collapseWhiteSpace_spec (rawText e) false) as [S1 [_ S3]].
  split; assumption.
Qed.

Lemma dropWhile_snoc (p : char16 -> bool) (l : jsstring) (c : char16) :
  dropWhile p (l ++ [c])
  = match dropWhile p l with
    | [] => if p c then [] else [c]
    | _ :: _ => dropWhile p l ++ [c]
    end.
Proof.
  induction l as [|x l IH]; simpl.
  - destruct (p c); reflexivity.
  - destruct (p x); [exact IH | reflexivity].
Qed.

Lemma trimEnd_cons c t :
  trimEnd (c :: t)
  = match trimEnd t with
    | [] => if isWhiteSpace c then [] else [c]
    | _ :: _ => c :: trimEnd t
    end.
Proof.
  unfold trimEnd. simpl rev. rewrite dropWhile_snoc.
  destruct (dropWhile isWhiteSpace (rev t)) as [|x l].
  - simpl. destruct (isWhiteSpace c); reflexivity.
  - rewrite rev_app_distr. change (rev [c]) with [c].
    assert (E : rev (x :: l) <> [])
      by (simpl; intros E; destruct (rev l); discriminate E).
    destruct (rev (x :: l)) as [|y k]; [congruence | reflexivity].
Qed.

Lemma trimEnd_cons_ink c t :
  isWhiteSpace c = false -> trimEnd (c :: t) = c :: trimEnd t.
Proof.
  intros Wc. rewrite trimEnd_cons, Wc. destruct (trimEnd t); reflexivity.
Qed.

Lemma trimStart_collapseWhiteSpace s :
  trimStart (collapseWhiteSpace false s) = collapseWhiteSpace true s.
Proof.
  unfold trimStart. destruct s as [|c s]; [reflexivity|]. simpl.
  destruct (isWhiteSpace c) eqn:Wc; [|simpl; rewrite Wc; reflexivity].
  change (dropWhile isWhiteSpace (32%N :: collapseWhiteSpace true s))
    with (dropWhile isWhiteSpace (collapseWhiteSpace true s)).
  destruct (collapseWhiteSpace_spec s true) as [_ [I2 _]].
  specialize (I2 eq_refl).
  destruct (collapseWhiteSpace true s) as [|d r]; [reflexivity|].
  simpl. rewrite I2. reflexivity.
Qed.

Lemma words_cons_space c s : isWhiteSpace c = true -> words (c :: s) = words s.
Proof. intros Wc. unfold words. simpl. rewrite Wc. reflexivity. Qed.

Lemma words_cons_ink c s :
  isWhiteSpace c = false ->
  words (c :: s)
  = match s with
    | [] => [[c]]
    | d :: _ =>
        if isWhiteSpace d then [c] :: words s
        else match words s with
             | w :: ws => (c :: w) :: ws
             | [] => [[c]]
             end
    end.
Proof.
  intros Wc. unfold words. simpl splitAtWhiteSpace. rewrite Wc.
  destruct s as [|d s]; [reflexivity|]. simpl splitAtWhiteSpace.
  destruct (isWhiteSpace d); [reflexivity|].
  destruct (splitAtWhiteSpace s); reflexivity.
Qed.

(** The words are not empty, hold no white space, and together are the
    units of the text that are no white space. *)
Lemma words_are_runs s :
  Forall (fun w => w <> [] /\ Forall (fun c => isWhiteSpace c = false) w) (words s)
  /\ concat (words s) = inked s.
Proof.
  induction s as [|c s [IH1 IH2]]; [split; [constructor | reflexivity]|].
  unfold inked in *. simpl filter.
  destruct (isWhiteSpace c) eqn:Wc; simpl negb; cbv iota.
  - rewrite (@words_cons_space c s Wc). split; assumption.
  - rewrite (@words_cons_ink c s Wc).
    assert (One : [c] <> [] /\ Forall (fun c => isWhiteSpace c = false) [c])
      by (split; [discriminate | repeat constructor; exact Wc]).
    destruct s as [|d s].
    + split; [constructor; [exact One | constructor] | reflexivity].
    + destruct (isWhiteSpace d) eqn:Wd.
      * split; [constructor; assumption|]. simpl concat. rewrite IH2. reflexivity.
      * destruct (words (d :: s)) as [|w ws].
        -- split; [constructor; [exact One | constructor]|]. simpl concat.
           rewrite <- IH2. reflexivity.
        -- inversion IH1 as [|? ? [Hw Fw] Hws]; subst. split.
           ++ constructor; [|exact Hws]. split; [discriminate|].
              constructor; assumption.
           ++ simpl concat. simpl concat in IH2. rewrite <- IH2. reflexivity.
Qed.

Lemma join_cons_unit sep c w ws :
  join sep ((c :: w) :: ws) = c :: join sep (w :: ws).
Proof. destruct ws; reflexivity. Qed.

Lemma join_words_nil s : join [32%N] (words s) = [] -> words s = [].
Proof.
  destruct (words_are_runs s) as [F _].
  destruct (words s) as [|w ws]; [reflexivity|].
  inversion F as [|? ? [Hw _] _]; subst.
  destruct w as [|c w]; [congruence|]. rewrite join_cons_unit. discriminate.
Qed.

(** What is left of [s.replace(/\s+/g, ' ')] when the white space at its end
    is dropped, read from a run of white space and from outside one. *)
Lemma trimEnd_collapseWhiteSpace s :
  trimEnd (collapseWhiteSpace true s) = join [32%N] (words s)
  /\ trimEnd (collapseWhiteSpace false s)
     = match s with
       | [] => []
       | c :: _ =>
           if isWhiteSpace c then
             match join [32%N] (words s) with
             | [] => []
             | _ :: _ => 32%N :: join [32%N] (words s)
             end
           else join [32%N] (words s)
       end.
Proof.
  induction s as [|c s [IHt IHf]]; [split; reflexivity|].
  simpl collapseWhiteSpace. destruct (isWhiteSpace c) eqn:Wc.
  - rewrite (@words_cons_space c s Wc). split; [exact IHt|].
    rewrite trimEnd_cons, IHt.
    destruct (join [32%N] (words s)); reflexivity.
  - assert (E : trimEnd (c :: collapseWhiteSpace false s)
                = join [32%N] (words (c :: s))); [|split; exact E].
    rewrite (@trimEnd_cons_ink c _ Wc), IHf, (@words_cons_ink c s Wc).
    destruct s as [|d s]; [reflexivity|].
    destruct (isWhiteSpace d).
    + destruct (words (d :: s)) as [|w ws] eqn:W; [reflexivity|].
      change (join [32%N] ([c] :: w :: ws))
        with (c :: 32%N :: join [32%N] (w :: ws)).
      destruct (join [32%N] (w :: ws)) as [|x k] eqn:J; [|reflexivity].
      rewrite <- W in J. apply join_words_nil in J. congruence.
    + destruct (words (d :: s)) as [|w ws]; [reflexivity|].
      rewrite join_cons_unit. reflexivity.
Qed.

Lemma inked_dropWhile s : inked (dropWhile isWhiteSpace s) = inked s.
Proof.
  unfold inked. induction s as [|c s IH]; [reflexivity|]. simpl.
  destruct (isWhiteSpace c) eqn:Wc; simpl; [exact IH | rewrite Wc; reflexivity].
Qed.

Lemma inked_rev s : inked (rev s) = rev (inked s).
Proof.
  unfold inked. induction s as [|c s IH]; [reflexivity|]. simpl.
  rewrite filter_app, IH. simpl.
  destruct (isWhiteSpace c); simpl; [apply app_nil_r | reflexivity].
Qed.

Lemma inked_trim s : inked (trim s) = inked s.
Proof.
  unfold trim, trimEnd, trimStart.
  rewrite inked_rev, inked_dropWhile, inked_rev, rev_involutive.
  apply inked_dropWhile.
Qed.

Lemma inked_collapseWhiteSpace s :
  forall inRun, inked (collapseWhiteSpace inRun s) = inked s.
Proof.
  unfold inked. induction s as [|c s IH]; intros inRun; [reflexivity|]. simpl.
  destruct (isWhiteSpace c) eqn:Wc; simpl.
  - destruct inRun; [apply IH|].
    change (filter (fun c => negb (isWhiteSpace c))
                   (32%N :: collapseWhiteSpace true s))
      with (filter (fun c => negb (isWhiteSpace c)) (collapseWhiteSpace true s)).
    apply IH.
  - rewrite Wc. simpl. f_equal. apply IH.
Qed.

(** X21. The text [getTextContent] gives for an element is the words of
    the element's text, in order, with one space between two words: the
    units that are no white space are kept as they are and in order, every
    run of white space between two words has become one space, and the
    white space at the two ends is gone. *)
Theorem getTextContent_is_normalised e :
  getTextContent e = join [32%N] (words (rawText e))
  /\ inked (getTextContent e) = inked (rawText e)
  /\ trim (getTextContent e) = getTextContent e
  /\ (forall c, In c (getTextContent e) -> isWhiteSpace c = true -> c = 32%N)
  /\ (forall a b x y, getTextContent e = a ++ x :: y :: b ->
        isWhiteSpace x = true -> isWhiteSpace y = true -> False).
Proof.
  split; [|split; [|split; [apply trim_idem | exact (getTextContent_singleSpaced e)]]].
  - unfold getTextContent, trim. rewrite trimStart_collapseWhiteSpace.
    apply trimEnd_collapseWhiteSpace.
  - unfold getTextContent. rewrite inked_trim. apply inked_collapseWhiteSpace.
Qed.

Lemma getTextContent_is_normalised_witness :
  words (rawText spaced_element) = [str "A"; str "short"; str "teaser"]
  /\ getTextContent spaced_element = str "A short teaser".
Proof.
  split; [vm_compute; reflexivity|].
  rewrite (proj1 (getTextContent_is_normalised spaced_element)).
  vm_compute. reflexivity.
Defined.

Lemma extractParagraphs_kept e : Forall keptParagraph (extractParagraphs e).
Proof.
  apply Forall_forall. intros p Hp. unfold extractParagraphs in Hp.
  apply filter_In in Hp as [Hp Hlen]. apply in_map_iff in Hp as [q [<- _]].
  split; [apply trim_idem | apply Nat.leb_le, Hlen].
Qed.

(** The loop over the [article] elements: the length kept is at least the
    one it started with and at least that of every element; either nothing
    changed or the element kept is one of the list, with the length
    kept. *)
Lemma longerArticle_fold l : forall best n,
  let r := fold_left longerArticle l (best, n) in
  n <= snd r
  /\ (forall a, In a l -> length (getTextContent a) <= snd r)
  /\ (r = (best, n)
      \/ exists a, In a l /\ fst r = Some a
                   /\ snd r = length (getTextContent a) /\ n < snd r).
Proof.
  induction l as [|a l IH]; intros best n; cbv zeta.
  - simpl. split; [lia|]. split; [intros a []|left; reflexivity].
  - simpl fold_left.
    assert (Estep : longerArticle (best, n) a
                    = if n <? length (getTextContent a)
                      then (Some a, length (getTextContent a)) else (best, n))
      by reflexivity.
    rewrite Estep.
    destruct (Nat.ltb_spec n (length (getTextContent a))) as [Hlt|Hge].
    + destruct (IH (Some a) (length (getTextContent a))) as [I1 [I2 I3]].
      split; [lia|]. split.
      * intros b [<-|Hb]; [exact I1 | apply I2, Hb].
      * right. destruct I3 as [E|[b [Hb [F [S L]]]]].
        -- exists a. rewrite E. simpl. split; [left; reflexivity|].
           split; [reflexivity|]. split; [reflexivity | exact Hlt].
        -- exists b. split; [right; exact Hb|]. split; [exact F|].
           split; [exact S | lia].
    + destruct (IH best n) as [I1 [I2 I3]].
      split; [exact I1|]. split.
      * intros b [<-|Hb]; [lia | apply I2, Hb].
      * destruct I3 as [E|[b [Hb [F [S L]]]]]; [left; exact E|].
        right. exists b. split; [right; exact Hb|]. tauto.
Qed.

Lemma trySemanticExtraction_article d :
  (exists a, In a (articleTags d) /\ getTextContent a <> []) ->
  exists e,
    In e (articleTags d)
    /\ trySemanticExtraction d = Some (extractionOf e)
    /\ forall a, In a (articleTags d) ->
         length (getTextContent a) <= length (getTextContent e).
Proof.
  intros [a [Ha Hne]]. unfold trySemanticExtraction.
  destruct (longerArticle_fold (articleTags d) None 0) as [_ [I2 I3]].
  cbv zeta in I2, I3.
  destruct I3 as [E|[e [He [F [S _]]]]].
  - exfalso. specialize (I2 a Ha). rewrite E in I2. simpl in I2.
    destruct (getTextContent a); [congruence | simpl in I2; lia].
  - exists e. split; [exact He|]. rewrite F. split; [reflexivity|].
    intros b Hb. rewrite <- S. apply I2, Hb.
Qed.

(** X22. When some [article] element has text, [trySemanticExtraction]
    returns the text and the paragraphs of an [article] element whose text
    is at least as long as that of every other; when none has text, it
    returns the [main] element if its text has at least 300 code units,
    and nothing otherwise. *)
Theorem semantic_extraction_takes_longest_article d :
  ((exists a, In a (articleTags d) /\ getTextContent a <> []) ->
   exists e,
     In e (articleTags d)
     /\ trySemanticExtraction d = Some (extractionOf e)
     /\ forall a, In a (articleTags d) ->
          length (getTextContent a) <= length (getTextContent e))
  /\ ((forall a, In a (articleTags d) -> getTextContent a = []) ->
      trySemanticExtraction d
      = match mainTag d with
        | Some m => if minArticleLength <=? length (getTextContent m)
                    then Some (extractionOf m) else None
        | None => None
        end).
Proof.
  split; [apply trySemanticExtraction_article|].
  intros Hall. unfold trySemanticExtraction.
  destruct (longerArticle_fold (articleTags d) None 0) as [_ [_ I3]].
  cbv zeta in I3. destruct I3 as [E|[e [He [_ [S L]]]]].
  - rewrite E. reflexivity.
  - exfalso. rewrite (Hall e He) in S. simpl in S. lia.
Qed.

Lemma found_is_element d a :
  match trySemanticExtraction d with
  | Some x => Some x
  | None => tryHeuristicExtraction d
  end = Some a ->
  exists e, a = extractionOf e.
Proof.
  unfold trySemanticExtraction, tryHeuristicExtraction.
  destruct (fst (fold_left longerArticle (articleTags d) (None, 0))) as [e|].
  - intros [= <-]. exists e. reflexivity.
  - destruct (mainTag d) as [m|].
    + destruct (minArticleLength <=? length (getTextContent m)).
      * intros [= <-]. exists m. reflexivity.
      * destruct (bestCandidate d) as [e|]; [|discriminate].
        intros [= <-]. exists e. reflexivity.
    + destruct (bestCandidate d) as [e|]; [|discriminate].
      intros [= <-]. exists e. reflexivity.
Qed.

(** X23. An article [fallbackExtraction] returns has a text of at least 300
    code units, normalised as [getTextContent] leaves it; its excerpt is
    the first 200 code units of the text followed by three dots; each of
    its paragraphs is trimmed and has at least 50 code units; its title is
    what [extractTitle] gives. *)
Theorem fallbackExtraction_article d art
    (Hr : fallbackExtraction d = Some art) :
  minArticleLength <= length (articleText art)
  /\ trim (articleText art) = articleText art
  /\ singleSpaced (articleText art)
  /\ excerpt art = firstn 200 (articleText art) ++ str "..."
  /\ length (excerpt art) = 203
  /\ Forall keptParagraph (articleParagraphs art)
  /\ title art = extractTitle d.
Proof.
  unfold fallbackExtraction in Hr. cbv zeta in Hr.
  destruct (match trySemanticExtraction d with
            | Some x => Some x
            | None => tryHeuristicExtraction d
            end) as [a|] eqn:Ef; [|discriminate].
  destruct (found_is_element d Ef) as [e ->].
  destruct (Nat.ltb_spec (length (text (extractionOf e))) minArticleLength)
    as [Hlt|Hge]; [discriminate|].
  apply (f_equal (fun o => match o with Some x => x | None => art end)) in Hr.
  cbv beta iota in Hr. subst art.
  cbv beta iota delta
    [articleText excerpt articleParagraphs title text paragraphs extractionOf] in *.
  split; [exact Hge|]. split; [apply trim_idem|].
  split; [apply getTextContent_singleSpaced|].
  split; [reflexivity|]. split; [|split; [apply extractParagraphs_kept | reflexivity]].
  unfold substring0. rewrite length_app, firstn_length_le.
  - reflexivity.
  - unfold minArticleLength in Hge. lia.
Qed.

(** X24. A short [article] element hides the rest of the page: when some
    [article] element has text and each has fewer than 300 code units,
    [fallbackExtraction] returns nothing, whatever the [main] element and
    the heuristic candidate hold. *)
Theorem short_article_hides_the_page d
    (Hsome : exists a, In a (articleTags d) /\ getTextContent a <> [])
    (Hshort : forall a, In a (articleTags d) ->
                length (getTextContent a) < minArticleLength) :
  fallbackExtraction d = None.
Proof.
  destruct (trySemanticExtraction_article d Hsome) as [e [He [E _]]].
  unfold fallbackExtraction. rewrite E. cbv zeta. simpl.
  specialize (Hshort e He). apply Nat.ltb_lt in Hshort. rewrite Hshort.
  reflexivity.
Qed.

End ExtractorFacts.

Lemma fallbackExtraction_article_witness :
  exists art,
    Extractor.fallbackExtraction
      {| Extractor.articleTags := [];
         Extractor.mainTag := Some long_element;
         Extractor.bestCandidate := None;
         Extractor.ogTitle := None;
         Extractor.h1 := Some (str " Headline ");
         Extractor.documentTitle := str "Site";
         Extractor.hostname := str "example.org" |} = Some art
    /\ length (Extractor.articleText art) = 400
    /\ length (Extractor.excerpt art) = 203
    /\ Extractor.title art = Some (str "Headline").
Proof.
  destruct (Extractor.fallbackExtraction
              {| Extractor.articleTags := [];
                 Extractor.mainTag := Some long_element;
                 Extractor.bestCandidate := None;
                 Extractor.ogTitle := None;
                 Extractor.h1 := Some (str " Headline ");
                 Extractor.documentTitle := str "Site";
                 Extractor.hostname := str "example.org" |}) as [art|] eqn:Hr;
    [|vm_compute in Hr; discriminate].
  exists art. split; [reflexivity|].
  destruct (fallbackExtraction_article _ Hr) as [_ [_ [_ [_ [Hl [_ Ht]]]]]].
  split; [|split; [exact Hl|]].
  - vm_compute in Hr. injection Hr as <-. vm_compute. reflexivity.
  - rewrite Ht. vm_compute. reflexivity.
Defined.

Lemma short_article_hides_the_page_witness :
  (exists a, In a (Extractor.articleTags short_article_page)
             /\ Extractor.getTextContent a <> [])
  /\ Extractor.getTextContent long_element = repeat 97%N 400
  /\ Extractor.fallbackExtraction short_article_page = None.
Proof.
  assert (Hsome : exists a, In a (Extractor.articleTags short_article_page)
                            /\ Extractor.getTextContent a <> []).
  { eexists. split; [left; reflexivity|]. vm_compute. discriminate. }
  assert (Hshort : forall a, In a (Extractor.articleTags short_article_page) ->
            length (Extractor.getTextContent a) < Extractor.minArticleLength).
  { intros a [<-|[]]. vm_compute. repeat constructor. }
  split; [exact Hsome|]. split; [vm_compute; reflexivity|].
  exact (short_article_hides_the_page short_article_page Hsome Hshort).
Defined.

(** ** The translate button *)

Section TranslateButtonFacts.
Context `{Number} `{Content.Browser}.

Import Content.

(** X25. [handleTranslate] never reaches its [catch]: with a summariser
    and a panel, whatever the network answers, the button ends with the
    label of a finished translation, not with the error label. *)
Theorem handleTranslate_always_reports_translated network st this p
    (Hs : summarizer st = Some this)
    (Hp : summaryPanel st = Some p) :
  exists p',
    summaryPanel (handleTranslate network st) = Some p'
    /\ translateBtn p' = Translated.
Proof.
  unfold handleTranslate. rewrite Hs, Hp.
  destruct (toTranslate st p) as [texts m].
  destruct (translate_resolves ([titleEl p; subtitleEl p] ++ texts)
              (str "Hindi") network []) as [out [sent' [E L]]].
  unfold run. rewrite E.
  destruct (applyHeader out (setButton Translating true p)) as [p1 contentResults].
  destruct m as [|target|]; [| destruct contentResults |];
    eexists; split; reflexivity.
Qed.

(** X26. When no answer carries a translation, [handleTranslate] on a
    summary list leaves the list shown and the current points as they
    were. *)
Theorem handleTranslate_without_answers_keeps_list network st this p items
    (Hs : summarizer st = Some this)
    (Hp : summaryPanel st = Some p)
    (Hc : contentDiv p = SummaryList items)
    (Hcur : currentSummaryPoints st = items)
    (Hne : items <> [])
    (Hnone : forall k req, translationIn (network k req) = None) :
  let st' := handleTranslate network st in
  currentSummaryPoints st' = items
  /\ option_map contentDiv (summaryPanel st') = Some (SummaryList items).
Proof.
  cbv zeta. unfold handleTranslate. rewrite Hs, Hp.
  unfold toTranslate. rewrite Hc, Hcur.
  destruct items as [|x l]; [congruence|].
  pose proof (translate_no_answers ([titleEl p; subtitleEl p] ++ x :: l)
                (str "Hindi") network [] Hnone) as E.
  unfold run.
  destruct (AISummarizer.translate _ (str "Hindi") network []) as [o sent'].
  simpl in E. subst o. split; reflexivity.
Qed.

End TranslateButtonFacts.

Section StandaloneFacts.
Context `{Number}.

Lemma translateText_is_translatePoint text targetLang :
  Standalone.translateText text targetLang
  = AISummarizer.translatePoint (Code targetLang) text.
Proof. reflexivity. Qed.

(** X27. The translator of the second revision agrees with the method of
    the summariser: [translateMultiple(texts, 'hi')] sends the same
    requests and resolves with the same array as
    [summarizer.translate(texts, 'Hindi')]. *)
Theorem translateMultiple_agrees_with_translate texts net sent :
  Standalone.translateMultiple texts (str "hi") net sent
  = AISummarizer.translate texts (str "Hindi") net sent.
Proof.
  unfold Standalone.translateMultiple, AISummarizer.translate, tryCatch.
  cbv zeta.
  assert (L : AISummarizer.langCode (str "Hindi") = Code (str "hi"))
    by (vm_compute; reflexivity).
  rewrite L.
  destruct (promiseAll_translate (Code (str "hi")) net texts sent)
    as [out [sent' [E _]]].
  assert (M : map (fun t => Standalone.translateText t (str "hi")) texts
              = map (fun p => AISummarizer.translatePoint (Code (str "hi")) p) texts)
    by reflexivity.
  rewrite M, E. reflexivity.
Qed.

End StandaloneFacts.

Lemma handleTranslate_always_reports_translated_witness :
  exists p',
    Content.summaryPanel (Content.handleTranslate offline_network summarised)
    = Some p'
    /\ Content.translateBtn p' = Content.Translated.
Proof.
  assert (Hs : Content.summarizer summarised = Some groq_only)
    by (vm_compute; reflexivity).
  destruct (Content.summaryPanel summarised) as [p|] eqn:Hp;
    [|vm_compute in Hp; discriminate].
  exact (handleTranslate_always_reports_translated offline_network summarised Hs Hp).
Defined.

Lemma handleTranslate_without_answers_keeps_list_witness :
  Content.currentSummaryPoints (Content.handleTranslate offline_network summarised)
  = sanitize two_finished_raw.
Proof.
  assert (Hs : Content.summarizer summarised = Some groq_only)
    by (vm_compute; reflexivity).
  destruct (Content.summaryPanel summarised) as [p|] eqn:Hp;
    [|vm_compute in Hp; discriminate].
  assert (Hc : Content.contentDiv p
               = Content.SummaryList (sanitize two_finished_raw)).
  { vm_compute in Hp. injection Hp as <-. vm_compute. reflexivity. }
  assert (Hcur : Content.currentSummaryPoints summarised = sanitize two_finished_raw)
    by (vm_compute; reflexivity).
  assert (Hne : sanitize two_finished_raw <> []) by (vm_compute; discriminate).
  assert (Hnone : forall k req, translationIn (offline_network k req) = None)
    by reflexivity.
  exact (proj1 (handleTranslate_without_answers_keeps_list offline_network
                  summarised Hs Hp Hc Hcur Hne Hnone)).
Defined.
